(** * BlueGrid front-end: the OCR grid normalisation and editing model

    A shallow embedding of the matrix-validation logic of
    [src/components/MatrixEditor.tsx] ([parseRowIndex], [gridRows],
    [handleValueChange], [handleConfirm], [handleSendFeedback], the
    low-confidence test) and of the save handler of the root component
    ([handleValidationSave]).

    Modelling conventions.
    - A JavaScript string is a sequence of UTF-16 code units; the model
      keeps the code units below 256, one [ascii] each.
    - Numbers used as row and column indices are the integer-valued
      binary64 numbers, kept as the integers they denote, [Z]; every
      integer of magnitude up to 2^53 is one of them, a larger one is
      rounded when it is computed ([F64.round]).
    - A confidence is an IEEE 754 binary64 number, [float].
    - [Map] objects are finite maps, [gmap]; arrays are lists.
    - React state is passed explicitly; the network is an oracle that
      answers each request with an outcome. *)

From Stdlib Require Import ZArith Ascii String List.
From Stdlib Require Import Floats.
From Stdlib Require Import DecimalString DecimalN DecimalPos DecimalZ.
From stdpp Require Import base option list gmap strings.

Set Warnings "-inexact-float".

Open Scope Z_scope.

(** ** Characters and character classes *)

Module Chars.

(** [\d] of an ECMAScript regular expression: the ten ASCII digits. *)
Definition is_digit (c : ascii) : bool :=
  let n := nat_of_ascii c in (48 <=? n)%nat && (n <=? 57)%nat.

(** [\s] restricted to the code units below 256: TAB, LF, VT, FF, CR,
    SPACE and NO-BREAK SPACE. *)
Definition is_space (c : ascii) : bool :=
  let n := nat_of_ascii c in
  ((9 <=? n)%nat && (n <=? 13)%nat) || (n =? 32)%nat || (n =? 160)%nat.

(** Canonicalisation of the [i] flag (no [u] flag): a code unit is compared
    through its upper-case form, except that a non-ASCII code unit never
    canonicalises to an ASCII one. The pattern only has ASCII letters, and
    an ASCII letter matches exactly its two cases; so it is enough to
    canonicalise the ASCII letters and to leave the other code units as
    they are. *)
Definition upper (c : ascii) : ascii :=
  let n := nat_of_ascii c in
  if (97 <=? n)%nat && (n <=? 122)%nat then ascii_of_nat (n - 32) else c.

Definition eq_ci (a b : ascii) : bool := Ascii.eqb (upper a) (upper b).

(** The value of a decimal digit. *)
Definition digit_value (c : ascii) : Z := Z.of_nat (nat_of_ascii c) - 48.

End Chars.

(** ** Strings *)

Module Str.

Fixpoint all_chars (p : ascii -> bool) (s : string) : bool :=
  match s with
  | EmptyString => true
  | String c s' => p c && all_chars p s'
  end.

(** The longest prefix of [s] whose characters satisfy [p] (a greedy
    [p*]), and what follows it. *)
Fixpoint take_while (p : ascii -> bool) (s : string) : string :=
  match s with
  | EmptyString => EmptyString
  | String c s' => if p c then String c (take_while p s') else EmptyString
  end.

Fixpoint drop_while (p : ascii -> bool) (s : string) : string :=
  match s with
  | EmptyString => EmptyString
  | String c s' => if p c then drop_while p s' else s
  end.

(** Matching a literal at the head of [s], ignoring case: the rest of [s]
    after the literal, or [None]. *)
Fixpoint strip_prefix_ci (lit s : string) : option string :=
  match lit with
  | EmptyString => Some s
  | String a lit' =>
      match s with
      | EmptyString => None
      | String b s' =>
          if Chars.eq_ci a b then strip_prefix_ci lit' s' else None
      end
  end.

(** [String.prototype.includes]. *)
Fixpoint includes (s sub : string) : bool :=
  String.prefix sub s ||
  match s with
  | EmptyString => false
  | String _ s' => includes s' sub
  end.

(** Decimal rendering of an integer inside a template literal (a number
    of magnitude below 10^21 is rendered with all its digits). *)
Definition of_Z (z : Z) : string := NilZero.string_of_int (Z.to_int z).

End Str.

(** ** Integer-valued numbers *)

(** A JavaScript number is an IEEE 754 binary64 value. The numbers that
    the row-label parsers compute are integers or +Infinity; such a
    number is kept as the integer it denotes, and the two infinities as
    [INFINITY] and its opposite, which lie one binade past the largest
    finite number. *)
Module F64.

Definition INFINITY : Z := 2 ^ 1024.

(** The Number value of a non-negative integer: round to nearest with 53
    significant bits, ties to the even significand, overflow to
    +Infinity. *)
Definition round_nonneg (z : Z) : Z :=
  if z <? 2 ^ 53 then z
  else
    let e := Z.log2 z - 52 in
    let q := Z.shiftr z e in
    let r := z - Z.shiftl q e in
    let half := 2 ^ (e - 1) in
    let q' :=
      if r <? half then q
      else if half <? r then q + 1
      else if Z.even q then q else q + 1 in
    let v := Z.shiftl q' e in
    if INFINITY <=? v then INFINITY else v.

Definition round (z : Z) : Z :=
  if z <? 0 then - round_nonneg (- z) else round_nonneg z.

(** [a - b] on numbers: the exact difference, rounded. With [a] infinite
    and [b] finite the rounding gives [a] back, as the subtraction
    does. *)
Definition sub (a b : Z) : Z := round (a - b).

End F64.

(** ** The row-label parser *)

(** [fila: string | number]. *)
Inductive RowLabel : Type :=
  | LNum (n : Z)
  | LStr (s : string).

(** The mathematical integer that a string starting with a digit
    denotes in base ten: the value of its leading run of digits. *)
Fixpoint parseInt_from (acc : Z) (s : string) : Z :=
  match s with
  | EmptyString => acc
  | String c s' =>
      if Chars.is_digit c
      then parseInt_from (10 * acc + Chars.digit_value c) s'
      else acc
  end.

(** [parseInt(s, 10)] on a string that starts with a digit: the Number
    value of that integer. It is only ever applied to a capture group of
    [(\d+)], which is a non-empty string of digits. (Past twenty
    significant digits the language lets an engine read the later digits
    as zeros; the model reads them all, as V8 does.) *)
Definition parseInt10 (s : string) : Z := F64.round (parseInt_from 0 s).

(** [/Fila\s*(\d+)/i] tried at the head of [s]; the result is capture
    group 1. [\s] and [\d] are disjoint, so the greedy [\s*] never has to
    give characters back: after the longest run of white space either a
    digit follows or no shorter run would help. *)
Definition match_fila_here (s : string) : option string :=
  match Str.strip_prefix_ci "Fila" s with
  | None => None
  | Some rest =>
      let digits := Str.take_while Chars.is_digit
                      (Str.drop_while Chars.is_space rest) in
      match digits with
      | EmptyString => None
      | String _ _ => Some digits
      end
  end.

(** [rowLabel.match(/Fila\s*(\d+)/i)]: the pattern is not anchored, so
    the leftmost position at which it matches wins. *)
Fixpoint match_fila (s : string) : option string :=
  match match_fila_here s with
  | Some d => Some d
  | None =>
      match s with
      | EmptyString => None
      | String _ s' => match_fila s'
      end
  end.

(** [rowLabel.match(/^(\d+)$/)]: the whole string is a non-empty run of
    digits. *)
Definition match_num (s : string) : option string :=
  match s with
  | EmptyString => None
  | String _ _ => if Str.all_chars Chars.is_digit s then Some s else None
  end.

Definition parseRowIndex (rowLabel : RowLabel) : Z :=
  match rowLabel with
  | LNum n => n
  | LStr s =>
      match match_fila s with
      | Some d => F64.sub (parseInt10 d) 1
      | None =>
          match match_num s with
          | Some d => parseInt10 d
          | None => -1
          end
      end
  end.

(** ** Cells *)

(** [interface MatrixCell]; an optional property is an [option]. *)
Record MatrixCell : Type := mkCell {
  fila : RowLabel;
  col : Z;
  valor : string;
  confianza : float;
  ref_id : option string;
  recorte_base64 : option string;
  valor_original : option string
}.

(** [{ ...cell, valor: newValue }]: a fresh object with every property of
    [cell] copied and [valor] replaced. *)
Definition with_valor (newValue : string) (cell : MatrixCell) : MatrixCell :=
  {| fila := fila cell;
     col := col cell;
     valor := newValue;
     confianza := confianza cell;
     ref_id := ref_id cell;
     recorte_base64 := recorte_base64 cell;
     valor_original := valor_original cell |}.

(** The parsed coordinate of a cell: [parseRowIndex(c.fila)] and
    [Number(c.col)]; [Number] is the identity on a number. *)
Definition Number_ (n : Z) : Z := n.

Definition coords (cell : MatrixCell) : Z * Z :=
  (parseRowIndex (fila cell), Number_ (col cell)).

(** ** The grid builder, [gridRows] *)

Definition FIXED_ROW_COUNT : Z := 5.

(** The row indices of the visual grid. *)
Definition in_rows (r : Z) : Prop := 0 ≤ r < FIXED_ROW_COUNT.

Record GridRow (A : Type) : Type := mkRow {
  index : Z;
  columns : list (option A)
}.
Arguments mkRow {A} _ _.
Arguments index {A} _.
Arguments columns {A} _.

(** The builder only reads the row label and the column of the objects it
    places, so it is written over any type of object that carries them;
    [gridRows] below is its instance at [MatrixCell]. The other instance
    used here tags every cell with its position in the flat list, which
    tells apart two cells with equal contents. *)
Section GridBuilder.

Context {A : Type} (fila_of : A -> RowLabel) (col_of : A -> Z).

(** The body of [cells.forEach]. *)
Definition addCell (rowMap : gmap Z (gmap Z A)) (cell : A)
  : gmap Z (gmap Z A) :=
  let rIndex := parseRowIndex (fila_of cell) in
  if (0 <=? rIndex) && (rIndex <? FIXED_ROW_COUNT) then
    let rowMap1 :=
      match rowMap !! rIndex with
      | Some _ => rowMap
      | None => <[rIndex := ∅]> rowMap
      end in
    let cIndex := Number_ (col_of cell) in
    match rowMap1 !! rIndex with
    | Some inner => <[rIndex := <[cIndex := cell]> inner]> rowMap1
    | None => rowMap1
    end
  else rowMap.

Definition buildRowMap (cells : list A) : gmap Z (gmap Z A) :=
  foldl addCell ∅ cells.

(** [rowMap.get(r)?.get(c)], then [cell || null]: an object is truthy. *)
Definition lookupCell (rowMap : gmap Z (gmap Z A)) (r c : Z) : option A :=
  rowMap !! r ≫= λ inner, inner !! c.

Definition buildRows (rowMap : gmap Z (gmap Z A)) : list (GridRow A) :=
  (λ r, mkRow r ((λ c, lookupCell rowMap r c) <$> seqZ 0 5))
    <$> seqZ 0 FIXED_ROW_COUNT.

Definition gridRowsOf (cells : list A) : list (GridRow A) :=
  buildRows (buildRowMap cells).

(** An object claims the coordinate (r, c) when its row label parses to
    [r] and its column is [c]. *)
Definition claims (r c : Z) (x : A) : Prop :=
  parseRowIndex (fila_of x) = r ∧ Number_ (col_of x) = c.

#[global] Instance claims_dec r c x : Decision (claims r c x).
Proof. unfold claims. apply _. Defined.

(** The last object of the list that claims (r, c). *)
Definition lastClaim (r c : Z) (l : list A) : option A :=
  last (filter (claims r c) l).

End GridBuilder.

Definition gridRows (cells : list MatrixCell) : list (GridRow MatrixCell) :=
  gridRowsOf fila col cells.

(** What the grid shows at row [r], column [c]. *)
Definition cell_at {A} (rows : list (GridRow A)) (r c : nat) : option A :=
  rows !! r ≫= λ row, mjoin (columns row !! c).

(** The cells of the flat list, each with its position. *)
Definition tagged (cells : list MatrixCell) : list (nat * MatrixCell) :=
  imap pair cells.

Definition gridRowsTagged (cells : list MatrixCell)
  : list (GridRow (nat * MatrixCell)) :=
  gridRowsOf (fila ∘ snd) (col ∘ snd) (tagged cells).

(** ** The edit mutator, [handleValueChange] *)

Definition at_coords (rowIndex colIndex : Z) (c : MatrixCell) : Prop :=
  parseRowIndex (fila c) = rowIndex ∧ Number_ (col c) = colIndex.

#[global] Instance at_coords_dec rowIndex colIndex c :
  Decision (at_coords rowIndex colIndex c).
Proof. unfold at_coords. apply _. Defined.

(** The cell appended for a coordinate that no cell claims. *)
Definition newCell (rowIndex colIndex : Z) (newValue : string) : MatrixCell :=
  {| fila := LNum rowIndex;
     col := colIndex;
     valor := newValue;
     confianza := 1.0%float;
     ref_id := None;
     recorte_base64 := None;
     valor_original := None |}.

(** The updater passed to [setCells]: [prev.findIndex] gives the first
    matching position. *)
Definition handleValueChange (rowIndex colIndex : Z) (newValue : string)
  (prev : list MatrixCell) : list MatrixCell :=
  match list_find (at_coords rowIndex colIndex) prev with
  | Some (existingIndex, existing) =>
      <[existingIndex := with_valor newValue existing]> prev
  | None => prev ++ [newCell rowIndex colIndex newValue]
  end.

(** ** The low-confidence flag *)

(** [cell ? cell.confianza < 0.85 : false], on a grid position. *)
Definition isLowConfidence (cell : option MatrixCell) : bool :=
  match cell with
  | Some c => PrimFloat.ltb (confianza c) 0.85%float
  | None => false
  end.

(** ** The feedback serializer, [handleSendFeedback] *)

Module Corr.

(** One element of [correcciones]. *)
Record t : Type := mk {
  ref_id : string;
  valor_corregido : string;
  fila : Z;
  col : Z;
  valor_original : string
}.

End Corr.

Module Feedback.

Record t : Type := mk {
  zona_id : Z;
  usuario_id : Z;
  correcciones : list Corr.t
}.

End Feedback.

(** [s || ""] on an optional string: [undefined] and the empty string are
    both falsy. *)
Definition or_empty (s : option string) : string :=
  match s with
  | Some s' => s'
  | None => EmptyString
  end.

(** The callback of [cells.map]. [originalCells.find] gives the first
    Snapshot cell at the parsed coordinate of the current cell. *)
Definition correction (originalCells : list MatrixCell)
  (currentCell : MatrixCell) : Corr.t :=
  let rIndex := parseRowIndex (fila currentCell) in
  let cIndex := Number_ (col currentCell) in
  let originalCell := snd <$> list_find (at_coords rIndex cIndex) originalCells in
  {| Corr.ref_id := or_empty (ref_id currentCell);
     Corr.valor_corregido := valor currentCell;
     Corr.fila := rIndex;
     Corr.col := cIndex;
     Corr.valor_original :=
       match originalCell with
       | Some oc => valor oc
       | None => EmptyString
       end |}.

Definition corrections (cells originalCells : list MatrixCell) : list Corr.t :=
  correction originalCells <$> cells.

(** The callback of [corrections.filter] warns on a falsy [ref_id] and
    returns [true] in every case. *)
Definition keepCorrection (c : Corr.t) : bool := true.

Definition warned (c : Corr.t) : bool := String.eqb (Corr.ref_id c) EmptyString.

Definition validCorrections (cs : list Corr.t) : list Corr.t :=
  List.filter keepCorrection cs.

Definition consoleWarnings (cs : list Corr.t) : list Corr.t :=
  List.filter warned cs.

(** [Number(data.zona_id) || 1]: zero is falsy. *)
Definition zonaOrDefault (zona_id : Z) : Z :=
  if Number_ zona_id =? 0 then 1 else Number_ zona_id.

Definition feedbackPayload (zona_id : Z) (cells originalCells : list MatrixCell)
  : Feedback.t :=
  {| Feedback.zona_id := zonaOrDefault zona_id;
     Feedback.usuario_id := 99;
     Feedback.correcciones := validCorrections (corrections cells originalCells) |}.

(** ** The application around the editor *)

Inductive AppView : Type := ViewSetup | ViewUpload | ViewEditor | ViewSuccess.

Inductive NotificationType : Type := NotifySuccess | NotifyError.

Record Notification : Type := mkNotification {
  message : string;
  type : NotificationType
}.

Record User : Type := mkUser {
  username : string;
  name : string
}.

Module OCR.

(** [interface OCRResponse], with the cell list of either response shape
    already extracted: [resultado_ia.matriz], or the legacy [matriz]. *)
Record t : Type := mk {
  id : Z;
  estado : string;
  zona_id : Z;
  matriz : option (list MatrixCell)
}.

End OCR.

(** [interface ValidationRequest]: the body of the commit request. *)
Record ValidationRequest : Type := mkValidation {
  cambios : list MatrixCell;
  comentarios : string
}.

Inductive Method : Type := POST | PUT.

Inductive Body : Type :=
  | ValidationBody (v : ValidationRequest)
  | FeedbackBody (p : Feedback.t).

Record Request : Type := mkRequest {
  url : string;
  method : Method;
  body : Body
}.

(** What awaiting a request gives: [fetch] rejects with an error, or
    resolves with a response whose text is then read (and reading it may
    reject too). *)
Inductive TextOutcome : Type :=
  | TextRead (text : string)
  | TextRejected (errorMessage : string).

Inductive FetchOutcome : Type :=
  | FetchRejected (errorMessage : string)
  | FetchResponse (status : Z) (text : TextOutcome).

(** [response.ok]: the status is in the range 200 to 299. *)
Definition response_ok (status : Z) : bool :=
  (200 <=? status) && (status <=? 299).

(** The state of the root component that the save handler reads or
    writes. *)
Record AppState : Type := mkApp {
  user : option User;
  apiUrl : string;
  view : AppView;
  ocrData : option OCR.t;
  successMsg : option string;
  notification : option Notification
}.

Definition showNotification (msg : string) (ty : NotificationType)
  (st : AppState) : AppState :=
  {| user := user st; apiUrl := apiUrl st; view := view st;
     ocrData := ocrData st; successMsg := successMsg st;
     notification := Some (mkNotification msg ty) |}.

Definition setView (v : AppView) (st : AppState) : AppState :=
  {| user := user st; apiUrl := apiUrl st; view := v;
     ocrData := ocrData st; successMsg := successMsg st;
     notification := notification st |}.

Definition setSuccessMsg (m : option string) (st : AppState) : AppState :=
  {| user := user st; apiUrl := apiUrl st; view := view st;
     ocrData := ocrData st; successMsg := m;
     notification := notification st |}.

(** The two letters outside ASCII that the messages use, as code units. *)
Definition o_acute : string := String (ascii_of_nat 243) EmptyString.
Definition inverted_bang : string := String (ascii_of_nat 161) EmptyString.

(** [user?.username || 'WebClient']. *)
Definition attribution (u : option User) : string :=
  match u with
  | Some u' => if String.eqb (username u') EmptyString then "WebClient" else username u'
  | None => "WebClient"
  end.

Definition validationRequest (st : AppState) (d : OCR.t)
  (validatedCells : list MatrixCell) : Request :=
  {| url := apiUrl st +:+ "/api/v1/registros/" +:+ Str.of_Z (OCR.id d)
            +:+ "/validacion";
     method := PUT;
     body := ValidationBody
               {| cambios := validatedCells;
                  comentarios := "Validado por " +:+ attribution (user st) |} |}.

(** The message of the error that the [try] block throws, if any. *)
Definition validationError (outcome : FetchOutcome) : option string :=
  match outcome with
  | FetchRejected m => Some m
  | FetchResponse status text =>
      if response_ok status then None
      else match text with
           | TextRead errText =>
               Some ("Fall" +:+ o_acute +:+ " validaci" +:+ o_acute +:+ "n ("
                     +:+ Str.of_Z status +:+ "): " +:+ errText)
           | TextRejected m => Some m
           end
  end.

(** [handleValidationSave]: the new state and the requests sent. *)
Definition handleValidationSave (fetch : Request -> FetchOutcome)
  (validatedCells : list MatrixCell) (st : AppState)
  : AppState * list Request :=
  match ocrData st with
  | None => (st, [])
  | Some d =>
      let req := validationRequest st d validatedCells in
      match validationError (fetch req) with
      | None =>
          (setSuccessMsg
             (Some (inverted_bang +:+ "Matriz validada y guardada correctamente!"))
             (setView ViewSuccess
                (showNotification "Matriz validada y guardada correctamente"
                   NotifySuccess st)),
           [req])
      | Some errMessage =>
          let displayMsg :=
            if Str.includes errMessage "Failed to fetch"
            then "Error de conexi" +:+ o_acute +:+ "n."
            else errMessage in
          (showNotification ("Error al guardar: " +:+ displayMsg) NotifyError st,
           [req])
      end
  end.

(** The state of the editor component. *)
Record EditorState : Type := mkEditor {
  cells : list MatrixCell;
  originalCells : list MatrixCell;
  isSaving : bool;
  isTraining : bool
}.

Definition setIsSaving (b : bool) (ed : EditorState) : EditorState :=
  {| cells := cells ed; originalCells := originalCells ed;
     isSaving := b; isTraining := isTraining ed |}.



(** [handleConfirm], with [onSave] bound to [handleValidationSave] as the
    root component mounts the editor; it mounts the editor only while a
    document is loaded ([ocrData] is not null). *)
Definition handleConfirm (fetch : Request -> FetchOutcome)
  (st : AppState) (ed : EditorState)
  : AppState * EditorState * list Request :=
  let ed1 := setIsSaving true ed in
  let '(st', sent) := handleValidationSave fetch (cells ed1) st in
  (st', setIsSaving false ed1, sent).

Definition setIsTraining (b : bool) (ed : EditorState) : EditorState :=
  {| cells := cells ed; originalCells := originalCells ed;
     isSaving := isSaving ed; isTraining := b |}.

(** The message of the error that the [try] block of the feedback handler
    throws, if any. *)
Definition feedbackError (outcome : FetchOutcome) : option string :=
  match outcome with
  | FetchRejected m => Some m
  | FetchResponse status text =>
      if response_ok status then None
      else match text with
           | TextRead errorText =>
               Some ("Error " +:+ Str.of_Z status +:+ ": " +:+ errorText)
           | TextRejected m => Some m
           end
  end.

(** [handleSendFeedback], with [onNotify] bound to [showNotification];
    [baseUrl] is what local storage holds. The result is the new state,
    the requests sent and the records that were warned about. *)
Definition handleSendFeedback (fetch : Request -> FetchOutcome)
  (baseUrl : string) (data : OCR.t) (st : AppState) (ed : EditorState)
  : AppState * EditorState * list Request * list Corr.t :=
  let ed1 := setIsTraining true ed in
  let payload :=
    feedbackPayload (OCR.zona_id data) (cells ed1) (originalCells ed1) in
  let req := {| url := baseUrl +:+ "/api/v1/training/feedback";
                method := POST;
                body := FeedbackBody payload |} in
  let st' :=
    match feedbackError (fetch req) with
    | None =>
        showNotification "Feedback enviado correctamente (ID Ref)"
          NotifySuccess st
    | Some errMessage =>
        showNotification ("Error al enviar feedback: " +:+ errMessage)
          NotifyError st
    end in
  (st', setIsTraining false ed1, [req],
   consoleWarnings (corrections (cells ed1) (originalCells ed1))).

(** The list that a confirm submits. *)
Definition submittedCells (sent : list Request) : list (list MatrixCell) :=
  omap (λ r, match body r with
             | ValidationBody v => Some (cambios v)
             | FeedbackBody _ => None
             end) sent.

(** ** Declarative descriptions of the labels *)

(** The word "Fila" in any mix of upper and lower case. *)
Definition fila_word (f : string) : Prop :=
  ∃ a b c d : ascii,
    f = String a (String b (String c (String d EmptyString))) ∧
    (a = "F" ∨ a = "f")%char ∧ (b = "I" ∨ b = "i")%char ∧
    (c = "L" ∨ c = "l")%char ∧ (d = "A" ∨ d = "a")%char.

(** A string made of white space only (possibly empty). *)
Definition blank (ws : string) : Prop :=
  Str.all_chars Chars.is_space ws = true.

(** A non-empty string of decimal digits, and the number it denotes, both
    through the decimal numerals of the standard library. *)
Definition denotes (ds : string) (n : N) : Prop :=
  ∃ d : Decimal.uint,
    NilEmpty.uint_of_string ds = Some d ∧ d ≠ Decimal.Nil ∧ N.of_uint d = n.

Definition digit_string (ds : string) : Prop := ∃ n, denotes ds n.

(** The pattern [Fila\s*\d+] occurs somewhere in [s]. *)
Definition fila_occurs (s : string) : Prop :=
  ∃ pre f ws ds post : string,
    s = pre +:+ f +:+ ws +:+ ds +:+ post ∧
    fila_word f ∧ blank ws ∧ digit_string ds.

(** The whole label is the word, white space and digits, with nothing
    before or after. *)
Definition fila_form (s : string) : Prop :=
  ∃ f ws ds : string,
    s = f +:+ ws +:+ ds ∧ fila_word f ∧ blank ws ∧ digit_string ds.

(** The largest magnitude up to which every integer is a number. *)
Definition MAX_EXACT : Z := 2 ^ 53.

(** A commit request fails when [fetch] rejects (a network error) or the
    response status is outside 200 to 299. *)
Definition failed (outcome : FetchOutcome) : Prop :=
  match outcome with
  | FetchRejected _ => True
  | FetchResponse status _ => response_ok status = false
  end.

(** No two cells of the list parse to the same coordinate. *)
Definition distinct_coords (flat : list MatrixCell) : Prop :=
  ∀ i j x y, flat !! i = Some x → flat !! j = Some y →
             coords x = coords y → i = j.

(** The sentinel for a label that is not a row. *)
Definition INVALID_ROW : Z := -1.

(** ** Sequences of edits *)

(** One change event of an input of the grid: the arguments that the
    input passes to [handleValueChange]. *)
Record Edit : Type := mkEdit {
  edit_row : Z;
  edit_col : Z;
  edit_value : string
}.

(** The flat list after the state update of one event, and after the
    updates of a sequence of events, oldest first. *)
Definition applyEdit (flat : list MatrixCell) (e : Edit) : list MatrixCell :=
  handleValueChange (edit_row e) (edit_col e) (edit_value e) flat.

Definition applyEdits (edits : list Edit) (flat : list MatrixCell)
  : list MatrixCell :=
  foldl applyEdit flat edits.

Definition edit_at (r c : Z) (e : Edit) : Prop :=
  edit_row e = r ∧ edit_col e = c.

#[global] Instance edit_at_dec r c e : Decision (edit_at r c e).
Proof. unfold edit_at. apply _. Defined.

(** The value of the last event of the sequence that went to (r, c). *)
Definition lastEditAt (r c : Z) (edits : list Edit) : option string :=
  edit_value <$> last (filter (edit_at r c) edits).

(** Two cells that differ at most in their value. *)
Definition same_but_value (x x' : MatrixCell) : Prop :=
  fila x' = fila x ∧ col x' = col x ∧ confianza x' = confianza x ∧
  ref_id x' = ref_id x ∧ recorte_base64 x' = recorte_base64 x ∧
  valor_original x' = valor_original x.

(** ** The original value shown beside an input *)

(** [s.match(/(\d+)/)?.[1]]: the leftmost run of digits of [s], as long
    as it goes. *)
Fixpoint first_digits (s : string) : option string :=
  match s with
  | EmptyString => None
  | String c s' =>
      if Chars.is_digit c then Some (Str.take_while Chars.is_digit s)
      else first_digits s'
  end.

(** The row index that the rendering code computes in place for a
    Snapshot cell: [typeof oc.fila === 'string' ?
    parseInt(oc.fila.match(/(\d+)/)?.[1] || "0") - 1 : oc.fila]. A run of
    digits is never empty, so it is truthy; [parseInt] without a radix
    reads a string of digits in base ten. *)
Definition inlineRowIndex (rowLabel : RowLabel) : Z :=
  match rowLabel with
  | LNum n => n
  | LStr s =>
      F64.sub (parseInt10 (match first_digits s with
                           | Some d => d
                           | None => "0"
                           end)) 1
  end.

Definition inline_at (rowIndex colIndex : Z) (oc : MatrixCell) : Prop :=
  inlineRowIndex (fila oc) = rowIndex ∧ Number_ (col oc) = colIndex.

#[global] Instance inline_at_dec rowIndex colIndex oc :
  Decision (inline_at rowIndex colIndex oc).
Proof. unfold inline_at. apply _. Defined.

(** [originalCells.find(...)] of the table cell and of
    [renderMobileInput], and the attribute [data-original]:
    [originalCell?.valor || ""]. *)
Definition originalCellAt (originalCells : list MatrixCell)
  (rowIndex colIndex : Z) : option MatrixCell :=
  snd <$> list_find (inline_at rowIndex colIndex) originalCells.

Definition dataOriginal (originalCells : list MatrixCell)
  (rowIndex colIndex : Z) : string :=
  match originalCellAt originalCells rowIndex colIndex with
  | Some oc => valor oc
  | None => EmptyString
  end.

(** A label in one of the two forms that the two ways of parsing read
    alike: a number, or the word, white space and digits. *)
Definition standard_label (l : RowLabel) : Prop :=
  (∃ n, l = LNum n) ∨
  (∃ f ws ds, l = LStr (f +:+ ws +:+ ds) ∧
              fila_word f ∧ blank ws ∧ digit_string ds).

(** ** The zoom of the reference image *)

(** [Math.min] and [Math.max] on two numbers: NaN if one of them is NaN,
    and -0 counts as smaller than +0. *)
Definition Math_min (a b : float) : float :=
  if is_nan a || is_nan b then nan
  else if PrimFloat.ltb a b then a
  else if PrimFloat.ltb b a then b
  else if get_sign a then a else b.

Definition Math_max (a b : float) : float :=
  if is_nan a || is_nan b then nan
  else if PrimFloat.ltb a b then b
  else if PrimFloat.ltb b a then a
  else if get_sign a then b else a.

Definition handleZoomIn (prev : float) : float :=
  Math_min (prev + 0.5)%float 4%float.

Definition handleZoomOut (prev : float) : float :=
  Math_max (prev - 0.5)%float 1%float.

Inductive ZoomClick : Type := ClickZoomIn | ClickZoomOut.

Definition zoomStep (level : float) (click : ZoomClick) : float :=
  match click with
  | ClickZoomIn => handleZoomIn level
  | ClickZoomOut => handleZoomOut level
  end.

(** The zoom level after a sequence of clicks; the state starts at 1. *)
Definition zoomAfter (clicks : list ZoomClick) : float :=
  foldl zoomStep 1%float clicks.

Definition zoom_levels : list float :=
  [1; 1.5; 2; 2.5; 3; 3.5; 4]%float.

(** ** The root component: state *)

Inductive UserRole : Type := RoleAdmin | RoleSupervisor | RoleBuzo.

Inductive AppModule : Type := ModuleOcr | ModuleDashboard.

(** A [File] object; only its identity matters here. *)
Record SelectedFile : Type := mkFile { file_name : string }.

(** The [role] of the user is kept here, beside the [User] record. *)
Record AuthState : Type := mkAuth {
  role : option UserRole;
  usernameInput : string;
  passwordInput : string;
  loginError : string
}.

Record UploadState : Type := mkUpload {
  selectedFile : option SelectedFile;
  selectedZone : string;
  isUploading : bool;
  uploadError : option string
}.

Record UiState : Type := mkUi {
  currentModule : AppModule;
  isSettingsOpen : bool;
  isMobileMenuOpen : bool;
  isDarkMode : bool
}.

(** What the component reaches outside React: local storage, and whether
    the root element of the document has the class [dark]. *)
Record Browser : Type := mkBrowser {
  localStorage : gmap string string;
  darkClass : bool
}.

Record Shell : Type := mkShell {
  app : AppState;
  auth : AuthState;
  upload : UploadState;
  ui : UiState;
  browser : Browser
}.

Definition STORAGE_KEY_URL : string := "bluegrid_api_url".
Definition STORAGE_KEY_THEME : string := "bluegrid_theme".
Definition DEFAULT_API_URL : string :=
  "https://precrystalline-arabella-tuberoid.ngrok-free.dev".

Definition on_app (f : AppState -> AppState) (sh : Shell) : Shell :=
  mkShell (f (app sh)) (auth sh) (upload sh) (ui sh) (browser sh).
Definition on_auth (f : AuthState -> AuthState) (sh : Shell) : Shell :=
  mkShell (app sh) (f (auth sh)) (upload sh) (ui sh) (browser sh).
Definition on_upload (f : UploadState -> UploadState) (sh : Shell) : Shell :=
  mkShell (app sh) (auth sh) (f (upload sh)) (ui sh) (browser sh).
Definition on_ui (f : UiState -> UiState) (sh : Shell) : Shell :=
  mkShell (app sh) (auth sh) (upload sh) (f (ui sh)) (browser sh).
Definition on_browser (f : Browser -> Browser) (sh : Shell) : Shell :=
  mkShell (app sh) (auth sh) (upload sh) (ui sh) (f (browser sh)).

Definition setUser (u : option User) (st : AppState) : AppState :=
  mkApp u (apiUrl st) (view st) (ocrData st) (successMsg st) (notification st).
Definition setApiUrl (url : string) (st : AppState) : AppState :=
  mkApp (user st) url (view st) (ocrData st) (successMsg st) (notification st).
Definition setOcrData (d : option OCR.t) (st : AppState) : AppState :=
  mkApp (user st) (apiUrl st) (view st) d (successMsg st) (notification st).
Definition setNotification (n : option Notification) (st : AppState) : AppState :=
  mkApp (user st) (apiUrl st) (view st) (ocrData st) (successMsg st) n.

Definition setRole (r : option UserRole) (a : AuthState) : AuthState :=
  mkAuth r (usernameInput a) (passwordInput a) (loginError a).
Definition setUsernameInput (s : string) (a : AuthState) : AuthState :=
  mkAuth (role a) s (passwordInput a) (loginError a).
Definition setPasswordInput (s : string) (a : AuthState) : AuthState :=
  mkAuth (role a) (usernameInput a) s (loginError a).
Definition setLoginError (s : string) (a : AuthState) : AuthState :=
  mkAuth (role a) (usernameInput a) (passwordInput a) s.

Definition setSelectedFile (f : option SelectedFile) (u : UploadState) : UploadState :=
  mkUpload f (selectedZone u) (isUploading u) (uploadError u).
Definition setSelectedZone (z : string) (u : UploadState) : UploadState :=
  mkUpload (selectedFile u) z (isUploading u) (uploadError u).
Definition setIsUploading (b : bool) (u : UploadState) : UploadState :=
  mkUpload (selectedFile u) (selectedZone u) b (uploadError u).
Definition setUploadError (e : option string) (u : UploadState) : UploadState :=
  mkUpload (selectedFile u) (selectedZone u) (isUploading u) e.

Definition setCurrentModule (m : AppModule) (u : UiState) : UiState :=
  mkUi m (isSettingsOpen u) (isMobileMenuOpen u) (isDarkMode u).
Definition setIsSettingsOpen (b : bool) (u : UiState) : UiState :=
  mkUi (currentModule u) b (isMobileMenuOpen u) (isDarkMode u).
Definition setIsMobileMenuOpen (b : bool) (u : UiState) : UiState :=
  mkUi (currentModule u) (isSettingsOpen u) b (isDarkMode u).
Definition setIsDarkMode (b : bool) (u : UiState) : UiState :=
  mkUi (currentModule u) (isSettingsOpen u) (isMobileMenuOpen u) b.

Definition storageSetItem (key value : string) (b : Browser) : Browser :=
  mkBrowser (<[key := value]> (localStorage b)) (darkClass b).
Definition setDarkClass (on : bool) (b : Browser) : Browser :=
  mkBrowser (localStorage b) on.

(** The state of the first render. *)
Definition initialShell (storage : gmap string string) (hasDarkClass : bool)
  : Shell :=
  {| app := mkApp None DEFAULT_API_URL ViewUpload None None None;
     auth := mkAuth None EmptyString EmptyString EmptyString;
     upload := mkUpload None EmptyString false None;
     ui := mkUi ModuleDashboard false false false;
     browser := mkBrowser storage hasDarkClass |}.

(** ** The root component: theme *)

(** The effect that initialises the theme: a stored theme wins, and
    without one the preference of the system decides; [!savedTheme] holds
    for a missing item and for an empty one. *)
Definition initTheme (prefersDark : bool) (sh : Shell) : Shell :=
  let savedTheme := localStorage (browser sh) !! STORAGE_KEY_THEME in
  let shouldBeDark :=
    match savedTheme with
    | Some t => String.eqb t "dark" || (String.eqb t EmptyString && prefersDark)
    | None => prefersDark
    end in
  on_browser (setDarkClass shouldBeDark) (on_ui (setIsDarkMode shouldBeDark) sh).

Definition toggleTheme (sh : Shell) : Shell :=
  let newMode := negb (isDarkMode (ui sh)) in
  on_browser (setDarkClass newMode)
    (on_browser (storageSetItem STORAGE_KEY_THEME
                   (if newMode then "dark" else "light"))
       (on_ui (setIsDarkMode newMode) sh)).

(** ** The root component: the address of the service *)

Definition is_slash (c : ascii) : bool := Ascii.eqb c "/"%char.

(** [url.replace(/\/+$/, '')]: the pattern matches at the leftmost
    position from which only slashes follow up to the end, and the match
    is removed. *)
Fixpoint stripTrailingSlashes (s : string) : string :=
  match s with
  | EmptyString => EmptyString
  | String c s' =>
      if Str.all_chars is_slash s then EmptyString
      else String c (stripTrailingSlashes s')
  end.

Definition ends_with_slash (s : string) : Prop :=
  ∃ s', s = s' +:+ "/".

(** [initAutoConnection]: the probe of the default address at start-up.
    [probe] answers the GET request to the given address. *)
Definition initAutoConnection (probe : string -> FetchOutcome) (sh : Shell)
  : Shell :=
  let cleanUrl := stripTrailingSlashes DEFAULT_API_URL in
  let ok :=
    match probe (cleanUrl +:+ "/") with
    | FetchRejected _ => false
    | FetchResponse status _ => response_ok status
    end in
  if ok then
    on_app (setView ViewUpload)
      (on_browser (storageSetItem STORAGE_KEY_URL cleanUrl)
         (on_app (setApiUrl cleanUrl) sh))
  else on_app (setApiUrl cleanUrl) sh.

Definition handleSaveUrl (url : string) (sh : Shell) : Shell :=
  on_app (setView ViewUpload)
    (on_ui (setIsSettingsOpen false)
       (on_browser (storageSetItem STORAGE_KEY_URL url)
          (on_app (setApiUrl url) sh))).

(** [handleSave] of the settings dialog, with [onSave] bound to
    [handleSaveUrl]: [probeSucceeded] is [status === 'success'], and
    [confirmed] is the answer to the confirmation that is asked for
    otherwise. *)
Definition settingsHandleSave (urlInput : string)
  (probeSucceeded confirmed : bool) (sh : Shell) : Shell :=
  let cleanUrl := stripTrailingSlashes urlInput in
  if negb probeSucceeded && negb confirmed then sh
  else handleSaveUrl cleanUrl sh.

(** ** The root component: session *)

(** [String.prototype.toLowerCase] on code units below 256: the ASCII
    capitals and the Latin-1 capitals (all of 192..222 but the
    multiplication sign, 215) move up by 32. *)
Definition lower_char (c : ascii) : ascii :=
  let n := nat_of_ascii c in
  if ((65 <=? n)%nat && (n <=? 90)%nat)
     || ((192 <=? n)%nat && (n <=? 222)%nat && negb (n =? 215)%nat)
  then ascii_of_nat (n + 32) else c.

Fixpoint toLowerCase (s : string) : string :=
  match s with
  | EmptyString => EmptyString
  | String c s' => String (lower_char c) (toLowerCase s')
  end.

Definition n_tilde : string := String (ascii_of_nat 241) EmptyString.

(** The accounts of the mock authentication: role and display name. *)
Definition account (u : string) : option (UserRole * string) :=
  if String.eqb u "admin" then Some (RoleAdmin, "Administrador General")
  else if String.eqb u "supervisor" then Some (RoleSupervisor, "Supervisor de Zona")
  else if String.eqb u "buzo" then Some (RoleBuzo, "Operador de Buceo")
  else None.

Definition handleLogin (sh : Shell) : Shell :=
  let sh1 := on_auth (setLoginError EmptyString) sh in
  let u := toLowerCase (usernameInput (auth sh)) in
  let p := passwordInput (auth sh) in
  if negb (String.eqb p "1234") then
    on_auth (setLoginError ("Contrase" +:+ n_tilde +:+ "a incorrecta")) sh1
  else
    match account u with
    | None =>
        on_auth (setLoginError
                   "Usuario no encontrado. (Prueba: admin, supervisor, buzo)") sh1
    | Some (r, displayName) =>
        on_ui (setCurrentModule
                 match r with
                 | RoleBuzo => ModuleOcr
                 | _ => ModuleDashboard
                 end)
          (on_auth (setRole (Some r))
             (on_app (setUser (Some (mkUser u displayName))) sh1))
    end.

Definition resetFlow (sh : Shell) : Shell :=
  on_app (setSuccessMsg None)
    (on_app (setView ViewUpload)
       (on_app (setOcrData None)
          (on_upload (setSelectedFile None) sh))).

Definition handleLogout (sh : Shell) : Shell :=
  resetFlow
    (on_auth (setPasswordInput EmptyString)
       (on_auth (setUsernameInput EmptyString)
          (on_auth (setRole None)
             (on_app (setUser None) sh)))).

(** The gates of the rendering. *)
Definition canViewDashboard (sh : Shell) : bool :=
  match role (auth sh) with
  | Some RoleAdmin | Some RoleSupervisor => true
  | _ => false
  end.

Definition canViewSettings (sh : Shell) : bool :=
  match role (auth sh) with
  | Some RoleAdmin => true
  | _ => false
  end.

(** [handleFileSelect]: [file] is [e.target.files[0]], if there is one. *)
Definition handleFileSelect (file : option SelectedFile) (sh : Shell) : Shell :=
  match file with
  | None => sh
  | Some f =>
      on_ui (setIsMobileMenuOpen false)
        (on_app (setView ViewUpload)
           (on_ui (setCurrentModule ModuleOcr)
              (on_upload (setUploadError None)
                 (on_upload (setSelectedFile (Some f)) sh))))
  end.

(** ** The root component: upload *)

(** The multipart request of the upload. *)
Record UploadRequest : Type := mkUploadRequest {
  upload_url : string;
  upload_file : SelectedFile;
  upload_zona_id : string
}.

(** What [JSON.parse(errorBody)] and the reading of the error give:
    either something throws, or the text is JSON, and then [detail] and
    [message] are the renderings of these two properties when they are
    truthy, and [stringified] is [JSON.stringify] of the whole. *)
Inductive ErrorJson : Type :=
  | NotJson
  | IsJson (detail message : option string) (stringified : string).

(** What awaiting the upload gives: [fetch] rejects; or it resolves with
    a response, whose status text and text are read when the status is
    not in 200..299, and whose JSON body is read when it is. What
    [response.json()] gives is not checked: it is a document (a truthy
    body is taken to have the declared shape), or, for the body [null]
    (or another falsy JSON value), nothing, [None]; or the body is not
    JSON and the reading rejects. *)
Inductive DocumentOutcome : Type :=
  | DocumentRead (data : option OCR.t)
  | DocumentRejected (errorMessage : string).

Inductive UploadOutcome : Type :=
  | UploadRejected (errorMessage : string)
  | UploadResponse (status : Z) (statusText : string)
      (text : TextOutcome) (document : DocumentOutcome).

(** [a || b] on strings: the empty string is falsy. *)
Definition or_else (a b : string) : string :=
  if String.eqb a EmptyString then b else a.

(** The [errorMessage] of a refused upload. *)
Definition uploadErrorMessage (parseError : string -> ErrorJson)
  (statusText : string) (text : TextOutcome) : string :=
  match text with
  | TextRejected _ => statusText
  | TextRead errorBody =>
      if String.eqb errorBody EmptyString then statusText
      else match parseError errorBody with
           | NotJson => errorBody
           | IsJson detail message stringified =>
               match detail, message with
               | Some d, _ => d
               | None, Some m => m
               | None, None => stringified
               end
           end
  end.

(** The result of the [try] block of the upload: what was read as the
    document, or the message of the error thrown. *)
Definition uploadResult (parseError : string -> ErrorJson)
  (outcome : UploadOutcome) : option OCR.t + string :=
  match outcome with
  | UploadRejected m => inr m
  | UploadResponse status statusText text document =>
      if response_ok status then
        match document with
        | DocumentRead data => inl data
        | DocumentRejected m => inr m
        end
      else inr ("Error Servidor (" +:+ Str.of_Z status +:+ "): "
                +:+ uploadErrorMessage parseError statusText text)
  end.

Definition connectionMessage : string :=
  "Error de conexi" +:+ o_acute
  +:+ "n. Verifica que el Colab est" +:+ String (ascii_of_nat 233) EmptyString
  +:+ " activo y la URL sea correcta.".

Definition uploadDisplayMessage (errMessage : string) : string :=
  let displayMsg := or_else errMessage "Error desconocido." in
  if Str.includes displayMsg "Failed to fetch"
     || Str.includes displayMsg "NetworkError"
  then connectionMessage
  else displayMsg.

(** [handleUpload]: the new state and the requests sent. *)
Definition handleUpload (fetch : UploadRequest -> UploadOutcome)
  (parseError : string -> ErrorJson) (sh : Shell)
  : Shell * list UploadRequest :=
  match selectedFile (upload sh) with
  | None =>
      (on_upload (setUploadError (Some "Por favor selecciona un archivo.")) sh,
       [])
  | Some file =>
      let zoneToSend := or_else (selectedZone (upload sh)) "1" in
      let sh1 := on_upload (setUploadError None)
                   (on_upload (setIsUploading true) sh) in
      let req := {| upload_url := apiUrl (app sh) +:+ "/api/v1/registros";
                    upload_file := file;
                    upload_zona_id := zoneToSend |} in
      let sh2 :=
        match uploadResult parseError (fetch req) with
        | inl data =>
            on_app (setView ViewEditor) (on_app (setOcrData data) sh1)
        | inr errMessage =>
            on_upload (setUploadError (Some (uploadDisplayMessage errMessage))) sh1
        end in
      (on_upload (setIsUploading false) sh2, [req])
  end.

(** ** The root component: what the user can do *)

(** The events of the root component and of the editor's buttons that
    reach it. A control that is rendered only for some roles is guarded
    by the same gate. Each event is handled to its end before the next
    one: a handler that awaits the network has its answer before another
    event comes. *)
Inductive Action : Type :=
  | TypeUsername (s : string)
  | TypePassword (s : string)
  | Login
  | Logout
  | ToggleTheme
  | GoDashboard
  | GoOcr
  | OpenSettings
  | CloseSettings
  | SaveSettings (urlInput : string) (probeSucceeded confirmed : bool)
  | SelectZone (zone : string)
  | SelectFile (file : option SelectedFile)
  | ToggleMobileMenu
  | Upload (fetch : UploadRequest -> UploadOutcome)
      (parseError : string -> ErrorJson)
  | Confirm (fetch : Request -> FetchOutcome) (validatedCells : list MatrixCell)
  | Notify (msg : string) (ty : NotificationType)
  | CloseToast
  | ResetFlow.

Definition step (sh : Shell) (a : Action) : Shell :=
  match a with
  | TypeUsername s => on_auth (setUsernameInput s) sh
  | TypePassword s => on_auth (setPasswordInput s) sh
  | Login => handleLogin sh
  | Logout => handleLogout sh
  | ToggleTheme => toggleTheme sh
  | GoDashboard =>
      if canViewDashboard sh then on_ui (setCurrentModule ModuleDashboard) sh
      else sh
  | GoOcr => on_ui (setCurrentModule ModuleOcr) sh
  | OpenSettings =>
      if canViewSettings sh then on_ui (setIsSettingsOpen true) sh else sh
  | CloseSettings => on_ui (setIsSettingsOpen false) sh
  | SaveSettings urlInput probeSucceeded confirmed =>
      settingsHandleSave urlInput probeSucceeded confirmed sh
  | SelectZone zone => on_upload (setSelectedZone zone) sh
  | SelectFile file => handleFileSelect file sh
  | ToggleMobileMenu =>
      on_ui (setIsMobileMenuOpen (negb (isMobileMenuOpen (ui sh)))) sh
  | Upload fetch parseError => (handleUpload fetch parseError sh).1
  | Confirm fetch validatedCells =>
      on_app (λ st, (handleValidationSave fetch validatedCells st).1) sh
  | Notify msg ty => on_app (showNotification msg ty) sh
  | CloseToast => on_app (setNotification None) sh
  | ResetFlow => resetFlow sh
  end.

(** The state after the two effects of the first render and a sequence
    of events. *)
Definition startShell (storage : gmap string string) (hasDarkClass : bool)
  (prefersDark : bool) (probe : string -> FetchOutcome) : Shell :=
  initAutoConnection probe
    (initTheme prefersDark (initialShell storage hasDarkClass)).

Definition run (actions : list Action) (sh : Shell) : Shell :=
  foldl step sh actions.

(** What the main area shows once the start-up screen is gone. *)
Inductive MainArea : Type :=
  | ShowLogin | ShowDashboard | ShowUpload | ShowEditor | ShowSuccess
  | ShowNothing.

Definition mainArea (sh : Shell) : MainArea :=
  match user (app sh) with
  | None => ShowLogin
  | Some _ =>
      match currentModule (ui sh) with
      | ModuleDashboard =>
          if canViewDashboard sh then ShowDashboard else ShowNothing
      | ModuleOcr =>
          match view (app sh), ocrData (app sh) with
          | ViewUpload, _ => ShowUpload
          | ViewEditor, Some _ => ShowEditor
          | ViewSuccess, _ => ShowSuccess
          | _, _ => ShowNothing
          end
      end
  end.

Definition is_upload (a : Action) : bool :=
  match a with
  | Upload _ _ => true
  | _ => false
  end.

(** What every state that the root component reaches satisfies. *)
Definition shell_ok (sh : Shell) : Prop :=
  view (app sh) ≠ ViewSetup ∧
  (is_Some (user (app sh)) ↔ is_Some (role (auth sh))) ∧
  (role (auth sh) = Some RoleBuzo → currentModule (ui sh) = ModuleOcr) ∧
  ¬ ends_with_slash (apiUrl (app sh)) ∧
  isUploading (upload sh) = false ∧
  darkClass (browser sh) = isDarkMode (ui sh).



(** [sub] occurs somewhere in [s]. *)
Definition contains (s sub : string) : Prop :=
  ∃ pre post : string, s = pre +:+ sub +:+ post.

(** The message that the upload form shows for the message [raw] of the
    error caught: a fixed text for an empty message, another for a
    message that tells of a network failure, and [raw] itself
    otherwise. *)
Definition shown_for (raw msg : string) : Prop :=
  (raw = EmptyString → msg = "Error desconocido.") ∧
  (contains raw "Failed to fetch" ∨ contains raw "NetworkError" →
   msg = connectionMessage) ∧
  (raw ≠ EmptyString → ¬ contains raw "Failed to fetch" →
   ¬ contains raw "NetworkError" → msg = raw).

(** The [errorMessage] that the upload reads from a refusal, case by
    case: the status text when the body cannot be read or is empty; the
    body when it is not JSON; else its [detail], its [message], or the
    whole of it. *)
Definition refusal_detail (parseError : string -> ErrorJson)
  (statusText : string) (text : TextOutcome) (detail : string) : Prop :=
  (∀ e, text = TextRejected e → detail = statusText) ∧
  (text = TextRead EmptyString → detail = statusText) ∧
  (∀ b, text = TextRead b → b ≠ EmptyString →
     (parseError b = NotJson → detail = b) ∧
     (∀ d m js, parseError b = IsJson (Some d) m js → detail = d) ∧
     (∀ m js, parseError b = IsJson None (Some m) js → detail = m) ∧
     (∀ js, parseError b = IsJson None None js → detail = js)).

(** A refused upload: the view and the document are as before, and the
    form shows the message for [raw]. *)
Definition upload_refused (sh sh' : Shell) (raw : string) : Prop :=
  view (app sh') = view (app sh) ∧
  ocrData (app sh') = ocrData (app sh) ∧
  ∃ msg, uploadError (upload sh') = Some msg ∧ msg ≠ EmptyString ∧
         shown_for raw msg.

(** ** Sample data *)

Definition cell_row0 : MatrixCell :=
  mkCell (LStr "Fila 1") 0 "1" 0.9%float (Some "R0_C0") None None.

Definition cell_r0c2 : MatrixCell :=
  mkCell (LStr "Fila 1") 2 "1" 0.6%float (Some "R0_C2") None None.

Definition cell_row7 : MatrixCell :=
  mkCell (LStr "Fila 8") 2 "5" 0.9%float (Some "R7_C2") None None.

Definition dup_early : MatrixCell :=
  mkCell (LStr "Fila 2") 3 "4" 0.9%float (Some "R1_C3") None None.

Definition dup_late : MatrixCell :=
  mkCell (LNum 1) 3 "9" 0.7%float (Some "R1_C3b") None None.

Definition snap_r1c1 : MatrixCell :=
  mkCell (LStr "Fila 2") 1 "5" 0.9%float (Some "R1_C1") None None.

Definition cur_r1c1 : MatrixCell :=
  mkCell (LStr "Fila 2") 1 "8" 0.9%float (Some "R1_C1") None None.

Definition sample_app : AppState :=
  mkApp (Some (mkUser "ana" "Ana")) "https://api" ViewEditor
        (Some (OCR.mk 12 "pendiente_validacion" 1 None)) None None.

Definition sample_editor : EditorState :=
  mkEditor [cell_row0; cell_r0c2] [cell_row0; cell_r0c2] false false.

Definition server_error : Request → FetchOutcome :=
  λ _, FetchResponse 500 (TextRead "boom").

Definition network_down : Request → FetchOutcome :=
  λ _, FetchRejected "Failed to fetch".

(** * Properties *)

(** ** Characters *)

Section CharFacts.

Local Open Scope char_scope.

Ltac by_cases c :=
  destruct c as [[] [] [] [] [] [] [] []]; vm_compute; intuition congruence.

Lemma digit_not_space c : Chars.is_digit c = true → Chars.is_space c = false.
Proof. by_cases c. Qed.

Lemma eq_ci_F c : Chars.eq_ci "F" c = true ↔ c = "F" ∨ c = "f".
Proof. by_cases c. Qed.

Lemma eq_ci_i c : Chars.eq_ci "i" c = true ↔ c = "I" ∨ c = "i".
Proof. by_cases c. Qed.

Lemma eq_ci_l c : Chars.eq_ci "l" c = true ↔ c = "L" ∨ c = "l".
Proof. by_cases c. Qed.

Lemma eq_ci_a c : Chars.eq_ci "a" c = true ↔ c = "A" ∨ c = "a".
Proof. by_cases c. Qed.

Lemma digit_not_F c : Chars.is_digit c = true → Chars.eq_ci "F" c = false.
Proof. by_cases c. Qed.

(** A character is a digit for the regular expression exactly when the
    standard library reads it as one. *)
Lemma is_digit_uint_of_char c d :
  Chars.is_digit c = true ↔ is_Some (uint_of_char c (Some d)).
Proof.
  destruct c as [[] [] [] [] [] [] [] []]; vm_compute;
    (split; [intros; try discriminate; eauto | intros [? ?]; congruence]).
Qed.

Lemma uint_of_char_value c d d' :
  uint_of_char c (Some d) = Some d' →
  Z.of_N (DecimalPos.Unsigned.of_lu d')
  = Chars.digit_value c + 10 * Z.of_N (DecimalPos.Unsigned.of_lu d).
Proof.
  intros H. apply uint_of_char_spec in H.
  destruct H as [[-> ->]|[[-> ->]|[[-> ->]|[[-> ->]|[[-> ->]|[[-> ->]|[[-> ->]
    |[[-> ->]|[[-> ->]|[-> ->]]]]]]]]]];
    rewrite DecimalPos.Unsigned.of_lu_eqn;
    cbn [DecimalPos.Unsigned.hd DecimalPos.Unsigned.tl];
    set (v := Chars.digit_value _); vm_compute in v; subst v; lia.
Qed.

End CharFacts.

(** ** Rounding to a number *)

(** An integer of magnitude up to 2^53 is a number: rounding keeps it. *)
Lemma F64_round_nonneg_exact z : z ≤ 2 ^ 53 → F64.round_nonneg z = z.
Proof.
  intros Hz. unfold F64.round_nonneg.
  destruct (Z.ltb_spec z (2 ^ 53)) as [|Hge]; [done|].
  assert (z = 2 ^ 53) as -> by lia. by vm_compute.
Qed.

Lemma F64_round_exact z : - 2 ^ 53 ≤ z ≤ 2 ^ 53 → F64.round z = z.
Proof.
  intros Hz. unfold F64.round.
  destruct (Z.ltb_spec z 0).
  - rewrite F64_round_nonneg_exact; lia.
  - apply F64_round_nonneg_exact; lia.
Qed.

(** Subtraction is exact as long as its operands and its result stay
    within 2^53. *)
Lemma F64_sub_exact a b :
  - 2 ^ 53 ≤ a - b ≤ 2 ^ 53 → F64.sub a b = a - b.
Proof. apply F64_round_exact. Qed.

(** ** Strings of digits and the numbers they denote *)

Section DigitStrings.

Import DecimalPos.Unsigned.

Lemma all_digits_uint s :
  Str.all_chars Chars.is_digit s = true ↔ is_Some (NilEmpty.uint_of_string s).
Proof.
  induction s as [|c s IH]; simpl.
  - split; eauto.
  - rewrite andb_true_iff, IH. split.
    + intros [Hc [d ->]]. by apply is_digit_uint_of_char.
    + destruct (NilEmpty.uint_of_string s) as [d|] eqn:E.
      * intros H. split; [by apply (is_digit_uint_of_char c d) | eauto].
      * intros [? ?]. discriminate.
Qed.

Lemma parseInt_from_uint s : ∀ d a,
  NilEmpty.uint_of_string s = Some d →
  parseInt_from (Z.of_N (of_lu a)) s = Z.of_N (of_lu (Decimal.revapp d a)).
Proof.
  induction s as [|c s IH]; simpl; intros d a H.
  - by injection H as <-.
  - destruct (NilEmpty.uint_of_string s) as [d'|] eqn:E; [|discriminate].
    assert (Hc : Chars.is_digit c = true)
      by (apply (is_digit_uint_of_char c d'); eauto).
    rewrite Hc.
    pose proof (uint_of_char_spec _ _ _ H) as Hs.
    destruct Hs as [[-> ->]|[[-> ->]|[[-> ->]|[[-> ->]|[[-> ->]|[[-> ->]
      |[[-> ->]|[[-> ->]|[[-> ->]|[-> ->]]]]]]]]]]; simpl Decimal.revapp;
      (rewrite <- (IH d' _ eq_refl); f_equal;
       rewrite (of_lu_eqn (_ a)); cbn [hd tl];
       set (v := Chars.digit_value _); vm_compute in v; subst v; lia).
Qed.

Lemma parseInt_from_denotes ds n :
  denotes ds n → parseInt_from 0 ds = Z.of_N n.
Proof.
  intros (d & Hd & _ & <-).
  change 0 with (Z.of_N (of_lu Decimal.Nil)).
  rewrite (parseInt_from_uint ds d Decimal.Nil Hd).
  unfold N.of_uint. by rewrite of_uint_alt.
Qed.

Lemma parseInt10_denotes ds n :
  denotes ds n → parseInt10 ds = F64.round (Z.of_N n).
Proof.
  intros H. unfold parseInt10. by rewrite (parseInt_from_denotes ds n H).
Qed.

(** Up to 2^53 the number read is the integer written. *)
Lemma parseInt10_exact ds n :
  denotes ds n → Z.of_N n ≤ MAX_EXACT → parseInt10 ds = Z.of_N n.
Proof.
  unfold MAX_EXACT. intros H Hn. rewrite (parseInt10_denotes ds n H).
  apply F64_round_exact. lia.
Qed.

Lemma digit_string_chars ds :
  digit_string ds ↔ Str.all_chars Chars.is_digit ds = true ∧ ds ≠ EmptyString.
Proof.
  split.
  - intros (n & d & Hd & Hnil & _). split.
    + apply all_digits_uint. eauto.
    + intros ->. simpl in Hd. congruence.
  - intros [Hall Hne]. apply all_digits_uint in Hall as [d Hd].
    exists (N.of_uint d), d. split_and!; [done| |done].
    intros ->. apply NilEmpty.sus in Hd. simpl in Hd. congruence.
Qed.

(** The decimal rendering of a natural number denotes it. *)
Lemma denotes_to_uint (n : N) :
  denotes (NilEmpty.string_of_uint (N.to_uint n)) n.
Proof.
  exists (N.to_uint n). split_and!.
  - apply NilEmpty.usu.
  - destruct n; [discriminate|]. simpl. apply to_uint_nonnil.
  - apply DecimalN.Unsigned.of_to.
Qed.

End DigitStrings.

(** ** The two regular expressions *)

Section Matcher.

Implicit Types (s rest f ws ds pre post : string) (p : ascii → bool).

#[local] Arguments String.append !_ _ : simpl nomatch.



Lemma take_while_app p s rest :
  Str.all_chars p s = true →
  Str.take_while p (s +:+ rest) = s +:+ Str.take_while p rest.
Proof.
  induction s as [|c s IH]; simpl; [done|].
  intros [-> H]%andb_true_iff. by rewrite IH.
Qed.

Lemma drop_while_app p s rest :
  Str.all_chars p s = true →
  Str.drop_while p (s +:+ rest) = Str.drop_while p rest.
Proof.
  induction s as [|c s IH]; simpl; [done|].
  intros [-> H]%andb_true_iff. by rewrite IH.
Qed.

Lemma drop_space_digits ds rest :
  digit_string ds →
  Str.drop_while Chars.is_space (ds +:+ rest) = ds +:+ rest.
Proof.
  intros [Hall Hne]%digit_string_chars.
  destruct ds as [|c ds]; [done|]. simpl in *.
  apply andb_true_iff in Hall as [Hc _].
  by rewrite (digit_not_space c Hc).
Qed.

Lemma strip_fila f rest :
  fila_word f → Str.strip_prefix_ci "Fila" (f +:+ rest) = Some rest.
Proof.
  intros (a & b & c & d & -> & Ha & Hb & Hc & Hd). simpl.
  by rewrite (proj2 (eq_ci_F a) Ha), (proj2 (eq_ci_i b) Hb),
    (proj2 (eq_ci_l c) Hc), (proj2 (eq_ci_a d) Hd).
Qed.


(** At the head of the string: the pattern matches exactly the strings
    that start with the word, white space and a digit, and it captures
    the longest run of digits there. *)
Lemma match_fila_here_shape f ws ds post :
  fila_word f → blank ws → digit_string ds →
  match_fila_here (f +:+ ws +:+ ds +:+ post)
  = Some (ds +:+ Str.take_while Chars.is_digit post).
Proof.
  intros Hf Hws Hds. unfold match_fila_here.
  rewrite (strip_fila _ _ Hf), (drop_while_app _ _ _ Hws),
    (drop_space_digits _ _ Hds).
  pose proof Hds as [Hall Hne]%digit_string_chars.
  rewrite (take_while_app _ _ _ Hall).
  destruct ds; [done|]. done.
Qed.


Lemma match_fila_here_Some s d :
  match_fila_here s = Some d → match_fila s = Some d.
Proof. intros H. destruct s; cbn [match_fila]; by rewrite H. Qed.





Lemma match_fila_exact f ws ds :
  fila_word f → blank ws → digit_string ds →
  match_fila (f +:+ ws +:+ ds) = Some ds.
Proof.
  intros Hf Hws Hds.
  pose proof (match_fila_here_shape f ws ds EmptyString Hf Hws Hds) as H.
  simpl in H.
  replace (ds +:+ EmptyString) with ds in H
    by (clear; induction ds; simpl; congruence).
  by apply match_fila_here_Some.
Qed.




Lemma fila_form_occurs s : fila_form s → fila_occurs s.
Proof.
  intros (f & ws & ds & -> & Hf & Hws & Hds).
  exists EmptyString, f, ws, ds, EmptyString. split_and!; try done.
  simpl. do 2 f_equal. clear. induction ds; simpl; congruence.
Qed.

Lemma match_fila_digits s :
  Str.all_chars Chars.is_digit s = true → match_fila s = None.
Proof.
  induction s as [|c s IH]; [done|].
  simpl Str.all_chars. intros [Hc Hs]%andb_true_iff.
  cbn [match_fila]. unfold match_fila_here. simpl Str.strip_prefix_ci.
  rewrite (digit_not_F c Hc). by apply IH.
Qed.

Lemma match_num_Some s d : match_num s = Some d ↔ d = s ∧ digit_string s.
Proof.
  rewrite digit_string_chars. unfold match_num.
  destruct s as [|c s].
  - split; [discriminate | by intros [_ [_ ?]]].
  - destruct (Str.all_chars Chars.is_digit (String c s)).
    + split; [by intros [= <-] | by intros [-> _]].
    + split; [discriminate | by intros [_ [? _]]].
Qed.


End Matcher.

(** ** The grid builder *)

Section GridFacts.

Context {A : Type} (fila_of : A → RowLabel) (col_of : A → Z).

#[local] Abbreviation claims := (claims fila_of col_of).
#[local] Abbreviation addCell := (addCell fila_of col_of).
#[local] Abbreviation buildRowMap := (buildRowMap fila_of col_of).
#[local] Abbreviation lastClaim := (lastClaim fila_of col_of).
#[local] Abbreviation gridRowsOf := (gridRowsOf fila_of col_of).

Implicit Types (rowMap : gmap Z (gmap Z A)) (l : list A) (x y : A) (r c : Z).

(** One step of the loop: the new cell takes the position it claims, if
    its row is one of the five, and no other position changes. *)
Lemma lookupCell_addCell rowMap x r c :
  lookupCell (addCell rowMap x) r c
  = if decide (in_rows r ∧ claims r c x) then Some x else lookupCell rowMap r c.
Proof.
  destruct (decide (in_rows r ∧ claims r c x)) as [[Hr [Hx Hc]]|Hn];
    unfold addCell, lookupCell.
  - rewrite Hx, Hc. unfold in_rows in Hr.
    rewrite (proj2 (Z.leb_le 0 r)), (proj2 (Z.ltb_lt r _)) by lia. simpl.
    destruct (rowMap !! r) as [inner|] eqn:E.
    + rewrite E, lookup_insert_eq. simpl. by rewrite lookup_insert_eq.
    + rewrite !lookup_insert_eq. simpl. by rewrite lookup_insert_eq.
  - destruct (0 <=? parseRowIndex (fila_of x)) eqn:E1; [|done].
    destruct (parseRowIndex (fila_of x) <? FIXED_ROW_COUNT) eqn:E2; [|done].
    simpl. apply Z.leb_le in E1. apply Z.ltb_lt in E2.
    destruct (decide (parseRowIndex (fila_of x) = r)) as [Hx|Hx].
    + assert (Hc : Number_ (col_of x) ≠ c).
      { intros Hc. apply Hn. unfold in_rows. split; [lia | done]. }
      rewrite Hx.
      destruct (rowMap !! r) as [inner|] eqn:E.
      * rewrite E, lookup_insert_eq. simpl. by rewrite lookup_insert_ne.
      * rewrite !lookup_insert_eq. simpl. by rewrite lookup_insert_ne.
    + destruct (rowMap !! parseRowIndex (fila_of x)) as [inner|] eqn:E.
      * rewrite E. by rewrite lookup_insert_ne.
      * rewrite lookup_insert_eq. by rewrite !lookup_insert_ne.
Qed.

Lemma lookupCell_empty r c : lookupCell (∅ : gmap Z (gmap Z A)) r c = None.
Proof. unfold lookupCell. by rewrite lookup_empty. Qed.

(** After the loop, a position of one of the five rows holds the last
    cell of the list that claims it. *)
Lemma lookupCell_buildRowMap l r c :
  lookupCell (buildRowMap l) r c
  = if decide (in_rows r) then lastClaim r c l else None.
Proof.
  unfold buildRowMap, lastClaim.
  induction l as [|x l IH] using rev_ind.
  - simpl. rewrite lookupCell_empty. by case_decide.
  - rewrite foldl_snoc, lookupCell_addCell, IH, filter_app.
    destruct (decide (in_rows r)) as [Hr|Hr].
    + destruct (decide (claims r c x)) as [Hx|Hx].
      * rewrite decide_True by done.
        by rewrite (filter_cons_True _ _ _ Hx), filter_nil, last_snoc.
      * rewrite decide_False by (by intros [_ ?]).
        by rewrite (filter_cons_False _ _ _ Hx), filter_nil, app_nil_r.
    + by rewrite decide_False by (by intros [? _]).
Qed.

(** Reading the dense grid. *)
Lemma cell_at_gridRowsOf l (r c : nat) :
  cell_at (gridRowsOf l) r c
  = if decide (r < 5 ∧ c < 5)%nat
    then lastClaim (Z.of_nat r) (Z.of_nat c) l else None.
Proof.
  unfold cell_at, gridRowsOf, buildRows, FIXED_ROW_COUNT.
  rewrite list_lookup_fmap.
  destruct (decide (r < 5)%nat) as [Hr|Hr].
  - rewrite lookup_seqZ_lt by lia. simpl.
    destruct c as [|[|[|[|[|c]]]]]; simpl;
      [rewrite lookupCell_buildRowMap, Z.add_0_l;
       rewrite decide_True by (unfold in_rows, FIXED_ROW_COUNT; lia);
       by rewrite decide_True by lia .. |].
    by rewrite decide_False by lia.
  - rewrite lookup_seqZ_ge by lia. simpl. by rewrite decide_False by lia.
Qed.

Lemma length_gridRowsOf l : length (gridRowsOf l) = 5%nat.
Proof. done. Qed.

Lemma gridRowsOf_row l (r : nat) row :
  gridRowsOf l !! r = Some row →
  index row = Z.of_nat r ∧ length (columns row) = 5%nat.
Proof.
  unfold gridRowsOf, buildRows. rewrite list_lookup_fmap.
  intros H. apply fmap_Some in H as (z & Hz & ->).
  apply lookup_seqZ in Hz as [-> _]. split; [simpl; lia | done].
Qed.

(** Every cell shown in the grid sits in the row and column it claims,
    and is the last cell of the list that claims them. *)
Lemma gridRowsOf_elem l row x :
  row ∈ gridRowsOf l → Some x ∈ columns row →
  ∃ c, in_rows (index row) ∧ 0 ≤ c < 5 ∧ lastClaim (index row) c l = Some x.
Proof.
  unfold gridRowsOf, buildRows.
  intros (r & -> & Hr)%list_elem_of_fmap. cbn [columns index].
  intros (c & Hx & Hc)%list_elem_of_fmap.
  apply elem_of_seqZ in Hr, Hc. symmetry in Hx.
  rewrite lookupCell_buildRowMap in Hx. case_decide; [|done].
  exists c. split_and!; try done; lia.
Qed.

(** [lastClaim] in terms of positions in the list. *)
Lemma lastClaim_Some l r c x :
  lastClaim r c l = Some x ↔
  ∃ j, l !! j = Some x ∧ claims r c x ∧
       ∀ k y, (j < k)%nat → l !! k = Some y → ¬ claims r c y.
Proof.
  unfold lastClaim. induction l as [|z l IH] using rev_ind.
  - split; [done|]. by intros (j & ? & _).
  - rewrite filter_app. destruct (decide (claims r c z)) as [Hz|Hz].
    + rewrite (filter_cons_True _ _ _ Hz), filter_nil, last_snoc. split.
      * intros [= <-]. exists (length l). split_and!; [|done|].
        -- by rewrite lookup_app_r, Nat.sub_diag by lia.
        -- intros k y Hk Hy. apply lookup_lt_Some in Hy.
           rewrite length_app in Hy. simpl in Hy. lia.
      * intros (j & Hj & Hx & Hlast).
        apply lookup_app_Some in Hj as [Hj|[Hlen Hj]].
        -- destruct (Hlast (length l) z); [by eapply lookup_lt_Some| |done].
           by rewrite lookup_app_r, Nat.sub_diag by lia.
        -- apply list_lookup_singleton_Some in Hj as [_ ->]. done.
    + rewrite (filter_cons_False _ _ _ Hz), filter_nil, app_nil_r, IH. split.
      * intros (j & Hj & Hx & Hlast). exists j. split_and!; [|done|].
        -- by apply lookup_app_l_Some.
        -- intros k y Hk Hy. apply lookup_app_Some in Hy as [Hy|[_ Hy]].
           ++ by eapply Hlast.
           ++ by apply list_lookup_singleton_Some in Hy as [_ ->].
      * intros (j & Hj & Hx & Hlast).
        apply lookup_app_Some in Hj as [Hj|[_ Hj]].
        -- exists j. split_and!; [done..|]. intros k y Hk Hy.
           eapply Hlast; [done|]. by apply lookup_app_l_Some.
        -- by apply list_lookup_singleton_Some in Hj as [_ ->].
Qed.

Lemma lastClaim_None l r c :
  lastClaim r c l = None ↔ ∀ x, x ∈ l → ¬ claims r c x.
Proof.
  unfold lastClaim. rewrite last_None. split.
  - intros H x Hx Hc. by eapply filter_nil_not_elem_of.
  - intros H. destruct (filter (claims r c) l) as [|x t] eqn:E; [done|].
    assert (Hx : x ∈ filter (claims r c) l) by (rewrite E; left).
    apply list_elem_of_filter in Hx as [? ?]. by destruct (H x).
Qed.

End GridFacts.

(** ** The grid of the editor, and the grid of positions *)

Section EditorGrid.

Implicit Types (flat : list MatrixCell) (x y : MatrixCell) (r c : Z).

Lemma tagged_lookup flat j : tagged flat !! j = pair j <$> flat !! j.
Proof. unfold tagged. apply list_lookup_imap. Qed.

Lemma tagged_lookup_Some flat j k x :
  tagged flat !! j = Some (k, x) ↔ k = j ∧ flat !! j = Some x.
Proof.
  rewrite tagged_lookup. destruct (flat !! j) as [y|]; simpl.
  - split; [by intros [= <- <-] | by intros [-> [= ->]]].
  - split; [done | by intros [_ ?]].
Qed.

(** The grid of positions holds at (r, c) the last position of the flat
    list whose cell claims (r, c). *)
Lemma lastClaim_tagged flat r c k x :
  lastClaim (fila ∘ snd) (col ∘ snd) r c (tagged flat) = Some (k, x) ↔
  flat !! k = Some x ∧ at_coords r c x ∧
  ∀ m y, (k < m)%nat → flat !! m = Some y → ¬ at_coords r c y.
Proof.
  rewrite lastClaim_Some. split.
  - intros (j & [-> Hj]%tagged_lookup_Some & Hx & Hlast).
    split_and!; [done..|]. intros m y Hm Hy.
    apply (Hlast m (m, y)); [done|]. by apply tagged_lookup_Some.
  - intros (Hk & Hx & Hlast). exists k. split_and!; [|done|].
    + by apply tagged_lookup_Some.
    + intros m [m' y] Hm [-> Hy]%tagged_lookup_Some. by apply (Hlast m y).
Qed.

Lemma lastClaim_flat flat r c x :
  lastClaim fila col r c flat = Some x ↔
  ∃ k, flat !! k = Some x ∧ at_coords r c x ∧
       ∀ m y, (k < m)%nat → flat !! m = Some y → ¬ at_coords r c y.
Proof. apply lastClaim_Some. Qed.

(** The grid of the editor is the grid of positions with the positions
    forgotten. *)
Lemma lastClaim_untag flat r c :
  lastClaim fila col r c flat
  = snd <$> lastClaim (fila ∘ snd) (col ∘ snd) r c (tagged flat).
Proof.
  apply option_eq. intros x. rewrite lastClaim_flat, fmap_Some. split.
  - intros (k & ? & ? & ?). exists (k, x). split; [|done].
    by apply lastClaim_tagged.
  - intros ([k y] & H & ->). apply lastClaim_tagged in H. by exists k.
Qed.

Lemma cell_at_untag flat (r c : nat) :
  cell_at (gridRows flat) r c = snd <$> cell_at (gridRowsTagged flat) r c.
Proof.
  unfold gridRows, gridRowsTagged. rewrite !cell_at_gridRowsOf.
  case_decide; [apply lastClaim_untag | done].
Qed.

Lemma cell_at_gridRows flat r c :
  in_rows r → 0 ≤ c < 5 →
  cell_at (gridRows flat) (Z.to_nat r) (Z.to_nat c) = lastClaim fila col r c flat.
Proof.
  unfold in_rows, FIXED_ROW_COUNT. intros Hr Hc. unfold gridRows.
  rewrite cell_at_gridRowsOf, decide_True by lia. by rewrite !Z2Nat.id by lia.
Qed.

Lemma cell_at_gridRowsTagged flat r c :
  in_rows r → 0 ≤ c < 5 →
  cell_at (gridRowsTagged flat) (Z.to_nat r) (Z.to_nat c)
  = lastClaim (fila ∘ snd) (col ∘ snd) r c (tagged flat).
Proof.
  unfold in_rows, FIXED_ROW_COUNT. intros Hr Hc. unfold gridRowsTagged.
  rewrite cell_at_gridRowsOf, decide_True by lia. by rewrite !Z2Nat.id by lia.
Qed.

(** A cell that the grid shows has its row among the five. *)
Lemma gridRows_shown_in_rows flat row x :
  row ∈ gridRows flat → Some x ∈ columns row →
  x ∈ flat ∧ in_rows (parseRowIndex (fila x)) ∧
  parseRowIndex (fila x) = index row.
Proof.
  intros Hrow Hx.
  destruct (gridRowsOf_elem _ _ _ _ _ Hrow Hx) as (c & Hr & Hc & Hlast).
  apply lastClaim_flat in Hlast as (k & Hk & [Hx1 Hx2] & _).
  split_and!; [by eapply list_elem_of_lookup_2 | by rewrite Hx1 | done].
Qed.

End EditorGrid.

(** ** The edit mutator *)

Section EditFacts.

Implicit Types (flat : list MatrixCell) (x y : MatrixCell) (r c : Z) (v : string).

Lemma at_coords_coords r c x : at_coords r c x ↔ coords x = (r, c).
Proof. unfold at_coords, coords. split; [by intros [-> ->] | by intros [= -> ->]]. Qed.

Lemma at_coords_with_valor r c v x :
  at_coords r c (with_valor v x) ↔ at_coords r c x.
Proof. done. Qed.

Lemma at_coords_newCell r c v : at_coords r c (newCell r c v).
Proof. done. Qed.

Lemma handleValueChange_found flat r c v i x :
  list_find (at_coords r c) flat = Some (i, x) →
  handleValueChange r c v flat = <[i := with_valor v x]> flat.
Proof. unfold handleValueChange. by intros ->. Qed.

Lemma handleValueChange_absent flat r c v :
  (∀ x, x ∈ flat → ¬ at_coords r c x) →
  handleValueChange r c v flat = flat ++ [newCell r c v].
Proof.
  intros H. unfold handleValueChange.
  destruct (list_find (at_coords r c) flat) as [[i x]|] eqn:E; [|done].
  apply list_find_Some in E as (Hi & Hx & _).
  destruct (H x); [by eapply list_elem_of_lookup_2 | done].
Qed.

Lemma list_find_present flat r c x :
  x ∈ flat → at_coords r c x →
  ∃ i y, list_find (at_coords r c) flat = Some (i, y).
Proof.
  intros Hin Hx.
  destruct (list_find_elem_of (at_coords r c) flat x Hin Hx) as [[i y] E].
  eauto.
Qed.

End EditFacts.

(** ** The commit request *)

Section CommitFacts.

Lemma failed_error outcome : failed outcome ↔ is_Some (validationError outcome).
Proof.
  destruct outcome as [m|status text]; simpl.
  - split; eauto.
  - destruct (response_ok status).
    + split; [done | by intros [? ?]].
    + destruct text; split; eauto.
Qed.

Lemma handleValidationSave_failed fetch flat st d m :
  ocrData st = Some d →
  validationError (fetch (validationRequest st d flat)) = Some m →
  ∃ msg,
    handleValidationSave fetch flat st
    = (showNotification ("Error al guardar: " +:+ msg) NotifyError st,
       [validationRequest st d flat]).
Proof. intros Hd Hm. unfold handleValidationSave. rewrite Hd, Hm. eauto. Qed.

Lemma handleValidationSave_sent fetch flat st d :
  ocrData st = Some d →
  (handleValidationSave fetch flat st).2 = [validationRequest st d flat].
Proof.
  intros Hd. unfold handleValidationSave. rewrite Hd.
  by destruct (validationError _).
Qed.

Lemma handleConfirm_sent fetch st ed d :
  ocrData st = Some d →
  (handleConfirm fetch st ed).2 = [validationRequest st d (cells ed)].
Proof.
  intros Hd. unfold handleConfirm.
  pose proof (handleValidationSave_sent fetch (cells (setIsSaving true ed)) st d Hd) as H.
  destruct (handleValidationSave _ _ _) as [st' sent]. by simpl in *.
Qed.

Lemma handleConfirm_editor fetch st ed :
  (handleConfirm fetch st ed).1.2 = setIsSaving false ed.
Proof.
  unfold handleConfirm. by destruct (handleValidationSave _ _ _) as [st' sent].
Qed.

Lemma handleConfirm_app fetch st ed :
  (handleConfirm fetch st ed).1.1 = (handleValidationSave fetch (cells ed) st).1.
Proof.
  unfold handleConfirm. simpl. by destruct (handleValidationSave _ _ _) as [st' sent].
Qed.

End CommitFacts.

(** * The row-label parser: results *)

Example parse_fila_10 : parseRowIndex (LStr "Fila 10") = 9.
Proof. reflexivity. Qed.

Example parse_lower_nospace : parseRowIndex (LStr "fILA007") = 6.
Proof. reflexivity. Qed.

Example parse_word_only : parseRowIndex (LStr "Fila") = INVALID_ROW.
Proof. reflexivity. Qed.

Example parse_empty : parseRowIndex (LStr "") = INVALID_ROW.
Proof. reflexivity. Qed.

(** The pattern is searched for, not matched against the whole label: a
    label that merely contains it parses like the occurrence. *)
Example parse_embedded : parseRowIndex (LStr "xxFila 3yy") = 2.
Proof. reflexivity. Qed.

Example parse_first_occurrence : parseRowIndex (LStr "Fila 2 o Fila 3") = 1.
Proof. reflexivity. Qed.

(** The two string forms, for every string of digits: the number read is
    the rounded one, and the decrement rounds again. *)
Lemma parseRowIndex_fila (f ws ds : string) (n : N) :
  fila_word f → blank ws → denotes ds n →
  parseRowIndex (LStr (f +:+ ws +:+ ds)) = F64.sub (F64.round (Z.of_N n)) 1.
Proof.
  intros Hf Hws Hds. unfold parseRowIndex.
  rewrite (match_fila_exact f ws ds Hf Hws (ex_intro _ n Hds)).
  by rewrite (parseInt10_denotes ds n Hds).
Qed.

Lemma parseRowIndex_digits (ds : string) (n : N) :
  denotes ds n → parseRowIndex (LStr ds) = F64.round (Z.of_N n).
Proof.
  intros Hds. unfold parseRowIndex.
  assert (Hd : digit_string ds) by by exists n.
  pose proof Hd as [Hall _]%digit_string_chars.
  rewrite (match_fila_digits ds Hall).
  rewrite (proj2 (match_num_Some ds ds) (conj eq_refl Hd)).
  by apply parseInt10_denotes.
Qed.

Lemma parseRowIndex_fila_exact (f ws ds : string) (n : N) :
  fila_word f → blank ws → denotes ds n → Z.of_N n ≤ MAX_EXACT →
  parseRowIndex (LStr (f +:+ ws +:+ ds)) = Z.of_N n - 1.
Proof.
  unfold MAX_EXACT. intros Hf Hws Hds Hn.
  rewrite (parseRowIndex_fila f ws ds n Hf Hws Hds).
  rewrite (F64_round_exact (Z.of_N n)) by lia.
  apply F64_sub_exact. lia.
Qed.

Lemma parseRowIndex_digits_exact (ds : string) (n : N) :
  denotes ds n → Z.of_N n ≤ MAX_EXACT → parseRowIndex (LStr ds) = Z.of_N n.
Proof.
  unfold MAX_EXACT. intros Hds Hn. rewrite (parseRowIndex_digits ds n Hds).
  apply F64_round_exact. lia.
Qed.

(** C1, as the specification states it, fails on a label whose number is
    past 2^53: the digits 9007199254740993 are read as the number
    9007199254740992, so that "Fila 9007199254740993" parses to
    9007199254740991 instead of N - 1, and "9007199254740993" to
    9007199254740992 instead of D. *)
Lemma parseRowIndex_large_label :
  fila_word "Fila" ∧ blank " " ∧
  denotes "9007199254740993" 9007199254740993 ∧
  parseRowIndex (LStr ("Fila" +:+ " " +:+ "9007199254740993"))
  = 9007199254740991 ∧
  parseRowIndex (LStr ("Fila" +:+ " " +:+ "9007199254740993"))
  ≠ Z.of_N 9007199254740993 - 1 ∧
  parseRowIndex (LStr "9007199254740993") = 9007199254740992 ∧
  parseRowIndex (LStr "9007199254740993") ≠ Z.of_N 9007199254740993.
Proof.
  split_and!.
  - exists "F"%char, "i"%char, "l"%char, "a"%char. split_and!; auto.
  - reflexivity.
  - eexists. split_and!; [reflexivity | discriminate | reflexivity].
  - by vm_compute.
  - by vm_compute.
  - by vm_compute.
  - by vm_compute.
Qed.

(** C1, amended. The row-label parser returns a numeric label as it is;
    it maps a label made of the word "Fila" (in any case), optional white
    space and a string of digits denoting N, with N at most 2^53, to
    N - 1; and it maps a label that is a string of digits denoting D, with
    D at most 2^53, to D itself, not decremented. In particular "Fila 1"
    parses to 0 and "3" parses to 3. *)
Theorem parseRowIndex_spec :
  (∀ n : Z, parseRowIndex (LNum n) = n) ∧
  (∀ (f ws ds : string) (n : N),
     fila_word f → blank ws → denotes ds n → Z.of_N n ≤ MAX_EXACT →
     parseRowIndex (LStr (f +:+ ws +:+ ds)) = Z.of_N n - 1) ∧
  (∀ (ds : string) (n : N),
     denotes ds n → Z.of_N n ≤ MAX_EXACT →
     parseRowIndex (LStr ds) = Z.of_N n) ∧
  parseRowIndex (LStr "Fila 1") = 0 ∧
  parseRowIndex (LStr "3") = 3.
Proof.
  split_and!; [done | apply parseRowIndex_fila_exact
              | apply parseRowIndex_digits_exact | done..].
Qed.

Lemma parseRowIndex_spec_witness :
  parseRowIndex (LStr ("fiLA" +:+ "  " +:+ "012")) = 11 ∧
  parseRowIndex (LStr "012") = 12.
Proof.
  assert (Hd : denotes "012" 12).
  { exists (Decimal.D0 (Decimal.D1 (Decimal.D2 Decimal.Nil))).
    split_and!; [reflexivity | discriminate | reflexivity]. }
  split.
  - apply (proj1 (proj2 parseRowIndex_spec) "fiLA" "  " "012" 12%N).
    + exists "f"%char, "i"%char, "L"%char, "A"%char. split_and!; auto.
    + reflexivity.
    + exact Hd.
    + by vm_compute.
  - apply (proj1 (proj2 (proj2 parseRowIndex_spec)) "012" 12%N);
      [exact Hd | by vm_compute].
Defined.

(** The bound is met: 2^53 itself is read exactly in both forms. *)
Example parse_max_exact :
  parseRowIndex (LStr "Fila 9007199254740992") = 9007199254740991 ∧
  parseRowIndex (LStr "9007199254740992") = 9007199254740992.
Proof. split; by vm_compute. Qed.

(** With the decimal rendering of the standard library: "Fila N" gives
    N - 1 and "N" gives N, for every natural number N up to 2^53. *)
Corollary parseRowIndex_rendered (n : N) :
  Z.of_N n ≤ MAX_EXACT →
  parseRowIndex (LStr ("Fila " +:+ NilEmpty.string_of_uint (N.to_uint n)))
  = Z.of_N n - 1 ∧
  parseRowIndex (LStr (NilEmpty.string_of_uint (N.to_uint n))) = Z.of_N n.
Proof.
  intros Hn. split.
  - apply (parseRowIndex_fila_exact "Fila" " " _ n);
      [|done|apply denotes_to_uint|done].
    exists "F"%char, "i"%char, "l"%char, "a"%char. split_and!; auto.
  - by apply parseRowIndex_digits_exact; [apply denotes_to_uint|].
Qed.




(** The sentinel is reserved for nothing else only up to the label
    "Fila 0", which also parses to -1. *)
Example parse_fila_0 : parseRowIndex (LStr "Fila 0") = INVALID_ROW.
Proof. reflexivity. Qed.

(** * The grid builder: results *)

(** The grid always has five rows of five positions, numbered from 0. *)
Lemma gridRows_shape (flat : list MatrixCell) :
  length (gridRows flat) = 5%nat ∧
  ∀ (r : nat) row, gridRows flat !! r = Some row →
    index row = Z.of_nat r ∧ length (columns row) = 5%nat.
Proof. split; [done|]. intros r row. apply gridRowsOf_row. Qed.

(** C2. A cell of the flat list whose parsed row index is outside 0..4
    appears in none of the five dense rows of the grid, and it is still in
    the list that a confirm submits: the commit request carries the flat
    list itself, and the confirm leaves the flat list as it was. *)
Theorem out_of_range_hidden_but_submitted
  (flat : list MatrixCell) (x : MatrixCell) :
  x ∈ flat →
  ¬ (0 ≤ parseRowIndex (fila x) ≤ 4) →
  length (gridRows flat) = 5%nat ∧
  (∀ row, row ∈ gridRows flat → Some x ∉ columns row) ∧
  (∀ fetch st ed d,
     ocrData st = Some d → cells ed = flat →
     submittedCells (handleConfirm fetch st ed).2 = [flat] ∧
     x ∈ flat ∧
     cells (handleConfirm fetch st ed).1.2 = flat).
Proof.
  intros Hin Hout. split_and!; [done| |].
  - intros row Hrow Hx.
    apply (gridRows_shown_in_rows flat row x Hrow) in Hx as (_ & Hr & _).
    unfold in_rows, FIXED_ROW_COUNT in Hr. lia.
  - intros fetch st ed d Hd <-. split_and!; [|done|].
    + by rewrite (handleConfirm_sent fetch st ed d Hd).
    + by rewrite handleConfirm_editor.
Qed.

Lemma out_of_range_hidden_but_submitted_witness :
  parseRowIndex (fila cell_row7) = 7 ∧
  ∀ row, row ∈ gridRows [cell_row0; cell_row7] → Some cell_row7 ∉ columns row.
Proof.
  split; [reflexivity|].
  apply (out_of_range_hidden_but_submitted [cell_row0; cell_row7] cell_row7).
  - apply list_elem_of_lookup. exists 1%nat. reflexivity.
  - vm_compute. intros [_ H]. apply H. reflexivity.
Defined.

(** C5. When an earlier and a later cell of the flat list parse to the
    same coordinate (r, c) of the 5 x 5 grid, the grid holds at (r, c) the
    cell of the last position that claims (r, c), which is the later cell
    or one after it, and the earlier cell, taken with its position in the
    list, appears nowhere in the grid. *)
Theorem duplicates_last_write_wins
  (flat : list MatrixCell) (i j : nat) (xi xj : MatrixCell) (r c : Z) :
  flat !! i = Some xi → flat !! j = Some xj → (i < j)%nat →
  0 ≤ r ≤ 4 → 0 ≤ c ≤ 4 →
  coords xi = (r, c) → coords xj = (r, c) →
  ∃ (k : nat) (xk : MatrixCell),
    (j ≤ k)%nat ∧ flat !! k = Some xk ∧ coords xk = (r, c) ∧
    (∀ m y, (k < m)%nat → flat !! m = Some y → coords y ≠ (r, c)) ∧
    cell_at (gridRows flat) (Z.to_nat r) (Z.to_nat c) = Some xk ∧
    cell_at (gridRowsTagged flat) (Z.to_nat r) (Z.to_nat c) = Some (k, xk) ∧
    (∀ row, row ∈ gridRowsTagged flat → Some (i, xi) ∉ columns row).
Proof.
  intros Hi Hj Hij Hr Hc Hxi%at_coords_coords Hxj%at_coords_coords.
  assert (Hr' : in_rows r) by (unfold in_rows, FIXED_ROW_COUNT; lia).
  destruct (lastClaim (fila ∘ snd) (col ∘ snd) r c (tagged flat))
    as [[k xk]|] eqn:E.
  - pose proof E as (Hk & Hxk & Hlast)%lastClaim_tagged.
    exists k, xk. split_and!.
    + destruct (decide (j ≤ k)%nat) as [|Hn]; [done|].
      destruct (Hlast j xj); [lia|done..].
    + done.
    + by apply at_coords_coords.
    + intros m y Hm Hy Hcy%at_coords_coords. by apply (Hlast m y).
    + rewrite cell_at_untag, cell_at_gridRowsTagged by (done || lia).
      by rewrite E.
    + by rewrite cell_at_gridRowsTagged by (done || lia).
    + intros row Hrow Hshown.
      destruct (gridRowsOf_elem _ _ _ _ _ Hrow Hshown) as (c' & _ & _ & Hl).
      apply lastClaim_tagged in Hl as (_ & [Hri Hci] & Hlast').
      destruct Hxi as [Hri' Hci']. rewrite Hri' in Hri. rewrite Hci' in Hci.
      subst c'. rewrite <- Hri in Hlast'. by apply (Hlast' j xj).
  - exfalso.
    pose proof (proj1 (lastClaim_None _ _ (tagged flat) r c) E (j, xj)) as H.
    apply H; [|done].
    apply list_elem_of_lookup. exists j. by apply tagged_lookup_Some.
Qed.

Lemma duplicates_last_write_wins_witness :
  cell_at (gridRows [dup_early; cell_row0; dup_late]) 1 3 = Some dup_late ∧
  ∀ row, row ∈ gridRowsTagged [dup_early; cell_row0; dup_late] →
         Some (0%nat, dup_early) ∉ columns row.
Proof.
  destruct (duplicates_last_write_wins [dup_early; cell_row0; dup_late]
              0 2 dup_early dup_late 1 3)
    as (k & xk & Hk & _ & _ & _ & Hat & _ & Hno);
    [reflexivity | reflexivity | lia | lia | lia | reflexivity | reflexivity |].
  split; [vm_compute; reflexivity | exact Hno].
Defined.

(** Two cells with the same contents are still two cells: the grid shows
    the later one. *)
Example duplicates_equal_contents :
  cell_at (gridRowsTagged [dup_late; dup_late]) 1 3 = Some (1%nat, dup_late).
Proof. vm_compute. reflexivity. Qed.

(** * The edit mutator: results *)

(** C3. When the flat list has a cell whose parsed row index is r and
    whose column is c, setValue(r, c, v) keeps the length of the list and
    changes one position only, that of the first such cell: there the new
    cell has value v and the same row label (same representation),
    column, confidence, reference id and other properties as before;
    every other position holds the cell it held. *)
Theorem setValue_existing_changes_value_only
  (flat : list MatrixCell) (r c : Z) (v : string) (x0 : MatrixCell) :
  x0 ∈ flat → parseRowIndex (fila x0) = r → col x0 = c →
  ∃ (i : nat) (x : MatrixCell),
    flat !! i = Some x ∧
    parseRowIndex (fila x) = r ∧ col x = c ∧
    (∀ k y, (k < i)%nat → flat !! k = Some y →
            ¬ (parseRowIndex (fila y) = r ∧ col y = c)) ∧
    length (handleValueChange r c v flat) = length flat ∧
    (∃ x', handleValueChange r c v flat !! i = Some x' ∧
           valor x' = v ∧
           fila x' = fila x ∧ col x' = col x ∧
           confianza x' = confianza x ∧ ref_id x' = ref_id x ∧
           recorte_base64 x' = recorte_base64 x ∧
           valor_original x' = valor_original x) ∧
    (∀ k, k ≠ i → handleValueChange r c v flat !! k = flat !! k) ∧
    (distinct_coords flat → x = x0).
Proof.
  intros Hin Hr Hc.
  destruct (list_find_present flat r c x0 Hin (conj Hr Hc)) as (i & x & E).
  rewrite (handleValueChange_found flat r c v i x E).
  apply list_find_Some in E as (Hi & [Hxr Hxc] & Hfirst).
  exists i, x. split_and!; try done.
  - intros k y Hk Hy. by apply (Hfirst k y).
  - apply length_insert.
  - exists (with_valor v x). split; [|done].
    apply list_lookup_insert_eq. by eapply lookup_lt_Some.
  - intros k Hk. by apply list_lookup_insert_ne.
  - intros Hdistinct. apply list_elem_of_lookup in Hin as [j0 Hj0].
    assert (i = j0) as ->; [|congruence].
    apply (Hdistinct i j0 x x0 Hi Hj0). unfold coords, Number_ in *. congruence.
Qed.

Lemma setValue_existing_changes_value_only_witness :
  ∃ x', handleValueChange 0 2 "7" [cell_row0; cell_r0c2; cell_row7] !! 1%nat
        = Some x' ∧
        valor x' = "7" ∧ fila x' = LStr "Fila 1" ∧
        confianza x' = 0.6%float ∧ ref_id x' = Some "R0_C2".
Proof.
  destruct (setValue_existing_changes_value_only
              [cell_row0; cell_r0c2; cell_row7] 0 2 "7" cell_r0c2)
    as (i & x & Hi & _ & Hcol & Hfirst & _ & (x' & Hx' & Hv & Hf & _ & Hc & Hid & _) & _ & _);
    [| reflexivity | reflexivity |].
  - apply list_elem_of_lookup. exists 1%nat. reflexivity.
  - assert (i = 1%nat) as ->.
    { destruct i as [|[|i]]; [injection Hi as <-; discriminate Hcol | done |].
      destruct (Hfirst 1%nat cell_r0c2); [lia | done | done]. }
    injection Hi as <-. exists x'. by split_and!.
Defined.

(** C6. When no cell of the flat list has parsed row index r and column
    c, setValue(r, c, v) appends exactly one cell, whose row label is the
    number r, whose column is c, whose value is v, whose confidence is
    1.0 and which has no reference id (the serializer reads it as the
    empty string); the cells that were in the list stay as they were. *)
Theorem setValue_absent_appends
  (flat : list MatrixCell) (r c : Z) (v : string) :
  (∀ x, x ∈ flat → ¬ (parseRowIndex (fila x) = r ∧ col x = c)) →
  ∃ new : MatrixCell,
    handleValueChange r c v flat = flat ++ [new] ∧
    fila new = LNum r ∧ col new = c ∧ valor new = v ∧
    confianza new = 1.0%float ∧
    ref_id new = None ∧
    (∀ orig, Corr.ref_id (correction orig new) = EmptyString) ∧
    length (handleValueChange r c v flat) = S (length flat) ∧
    (∀ k y, flat !! k = Some y → handleValueChange r c v flat !! k = Some y).
Proof.
  intros H. rewrite (handleValueChange_absent flat r c v H).
  exists (newCell r c v). split_and!; try done.
  - rewrite length_app. simpl. lia.
  - intros k y Hy. by apply lookup_app_l_Some.
Qed.

Lemma setValue_absent_appends_witness :
  handleValueChange 3 4 "X" [cell_row0; cell_r0c2]
  = [cell_row0; cell_r0c2; mkCell (LNum 3) 4 "X" 1.0%float None None None].
Proof.
  destruct (setValue_absent_appends [cell_row0; cell_r0c2] 3 4 "X")
    as (new & Heq & Hf & Hc & Hv & Hconf & Hid & _).
  - intros x Hx [Hr _]. revert Hr.
    apply elem_of_cons in Hx as [->|Hx]; [vm_compute; discriminate|].
    apply elem_of_cons in Hx as [->|Hx]; [vm_compute; discriminate|].
    by apply elem_of_nil in Hx.
  - rewrite Heq. destruct new; simpl in *. by subst.
Defined.

(** C10. When no two cells of the flat list parse to the same
    coordinate, and 0 <= r <= 4 and 0 <= c <= 4, the grid rebuilt after
    setValue(r, c, v) holds at (r, c) a cell whose value is v. *)
Theorem setValue_then_rebuild
  (flat : list MatrixCell) (r c : Z) (v : string) :
  distinct_coords flat →
  0 ≤ r ≤ 4 → 0 ≤ c ≤ 4 →
  ∃ x' : MatrixCell,
    cell_at (gridRows (handleValueChange r c v flat)) (Z.to_nat r) (Z.to_nat c)
    = Some x' ∧
    valor x' = v.
Proof.
  intros Hdistinct Hr Hc.
  rewrite cell_at_gridRows by (unfold in_rows, FIXED_ROW_COUNT; lia).
  unfold handleValueChange.
  destruct (list_find (at_coords r c) flat) as [[i x]|] eqn:E.
  - apply list_find_Some in E as (Hi & Hx & _).
    exists (with_valor v x). split; [|done].
    apply lastClaim_flat. exists i. split_and!.
    + apply list_lookup_insert_eq. by eapply lookup_lt_Some.
    + done.
    + intros m y Hm Hy Hcy.
      rewrite list_lookup_insert_ne in Hy by lia.
      assert (i = m); [|lia].
      apply (Hdistinct i m x y Hi Hy).
      apply at_coords_coords in Hx, Hcy. congruence.
  - exists (newCell r c v). split; [|done].
    apply lastClaim_flat. exists (length flat). split_and!.
    + by rewrite lookup_app_r, Nat.sub_diag by lia.
    + done.
    + intros m y Hm Hy. apply lookup_lt_Some in Hy.
      rewrite length_app in Hy. simpl in Hy. lia.
Qed.

Lemma setValue_then_rebuild_witness :
  ∃ x', cell_at (gridRows (handleValueChange 0 2 "7" [cell_row0; cell_r0c2])) 0 2
        = Some x' ∧ valor x' = "7".
Proof.
  apply (setValue_then_rebuild [cell_row0; cell_r0c2] 0 2 "7"); [|lia|lia].
  intros i j x y Hi Hj.
  destruct i as [|[|i]], j as [|[|j]]; try done;
    injection Hi as <-; injection Hj as <-; vm_compute; discriminate.
Defined.

(** Without the hypothesis the edit can be invisible: the mutator writes
    to the first cell at a coordinate and the grid shows the last. *)
Example setValue_with_duplicates :
  cell_at (gridRows (handleValueChange 1 3 "0" [dup_early; dup_late])) 1 3
  = Some dup_late.
Proof. vm_compute. reflexivity. Qed.

(** * The feedback serializer: results *)

Lemma validCorrections_all (cs : list Corr.t) : validCorrections cs = cs.
Proof. unfold validCorrections. induction cs as [|c cs IH]; simpl; congruence. Qed.

(** C4. The feedback serializer builds one correction record for each
    cell of the flat list, in order and with none left out, whatever the
    reference id: the record's ref_id is the reference id of the cell, or
    the empty string when the cell has none; its corrected value is the
    value of the cell; its original value is the value of the first
    Snapshot cell whose parsed (row, col) equals that of the cell, or the
    empty string when the Snapshot has no such cell. *)
Theorem feedback_one_record_per_cell
  (zona_id : Z) (flat snapshot : list MatrixCell) :
  let records := Feedback.correcciones (feedbackPayload zona_id flat snapshot) in
  (∀ fetch baseUrl data st ed,
     OCR.zona_id data = zona_id → cells ed = flat → originalCells ed = snapshot →
     ∃ payload,
       (handleSendFeedback fetch baseUrl data st ed).1.2
       = [mkRequest (baseUrl +:+ "/api/v1/training/feedback") POST
            (FeedbackBody payload)] ∧
       Feedback.correcciones payload = records) ∧
  length records = length flat ∧
  ∀ (i : nat) (x : MatrixCell), flat !! i = Some x →
    ∃ rec : Corr.t,
      records !! i = Some rec ∧
      Corr.ref_id rec = default EmptyString (ref_id x) ∧
      Corr.valor_corregido rec = valor x ∧
      Corr.fila rec = parseRowIndex (fila x) ∧ Corr.col rec = col x ∧
      (∀ (j : nat) (o : MatrixCell),
         snapshot !! j = Some o → coords o = coords x →
         (∀ k o', (k < j)%nat → snapshot !! k = Some o' → coords o' ≠ coords x) →
         Corr.valor_original rec = valor o) ∧
      ((∀ o, o ∈ snapshot → coords o ≠ coords x) →
       Corr.valor_original rec = EmptyString).
Proof.
  simpl. rewrite validCorrections_all. unfold corrections. split_and!.
  - intros fetch baseUrl data st ed <- <- <-. eexists. split; [reflexivity|].
    simpl. by rewrite validCorrections_all.
  - apply length_fmap.
  - intros i x Hx. exists (correction snapshot x).
    split_and!; try done.
    + by rewrite list_lookup_fmap, Hx.
    + intros j o Hj Ho Hfirst. unfold correction. simpl.
      assert (E : list_find (at_coords (parseRowIndex (fila x)) (Number_ (col x)))
                    snapshot = Some (j, o)).
      { apply list_find_Some. split_and!; [done| |].
        - by apply at_coords_coords.
        - intros k o' Hk Ho' Hc%at_coords_coords. by apply (Hfirst k o'). }
      by rewrite E.
    + intros Hnone. unfold correction. simpl.
      assert (E : list_find (at_coords (parseRowIndex (fila x)) (Number_ (col x)))
                    snapshot = None).
      { apply list_find_None, Forall_forall.
        intros o Ho Hc%at_coords_coords. by apply (Hnone o). }
      by rewrite E.
Qed.

Lemma feedback_one_record_per_cell_witness :
  ∃ rec, Feedback.correcciones
           (feedbackPayload 1 [cur_r1c1; newCell 3 4 "X"] [snap_r1c1]) !! 0%nat
         = Some rec ∧
         Corr.valor_original rec = "5" ∧ Corr.valor_corregido rec = "8".
Proof.
  destruct (feedback_one_record_per_cell 1 [cur_r1c1; newCell 3 4 "X"] [snap_r1c1])
    as (_ & _ & H).
  destruct (H 0%nat cur_r1c1 eq_refl) as (rec & Hrec & _ & Hv & _ & _ & Ho & _).
  exists rec. split_and!; [done| |done].
  apply (Ho 0%nat snap_r1c1); [reflexivity | reflexivity |].
  intros k o' Hk. lia.
Defined.

(** The example of the specification, and a cell the user added. *)
Example feedback_example :
  Feedback.correcciones
    (feedbackPayload 1 [cur_r1c1; newCell 3 4 "X"] [snap_r1c1])
  = [Corr.mk "R1_C1" "8" 1 1 "5"; Corr.mk "" "X" 3 4 ""].
Proof. reflexivity. Qed.

(** * The commit request: results *)

(** C7. When the commit request of a confirm fails, because of a network
    error or of a response outside 2xx, the user is shown an error
    message, the view stays what it was (so it does not become the
    success view), the flat list, the Snapshot and the grid are what they
    were, and confirming again sends the same request with the same
    cells. *)
Theorem confirm_failure_leaves_state
  (fetch : Request → FetchOutcome) (st : AppState) (ed : EditorState)
  (d : OCR.t) :
  ocrData st = Some d →
  failed (fetch (validationRequest st d (cells ed))) →
  let st' := (handleConfirm fetch st ed).1.1 in
  let ed' := (handleConfirm fetch st ed).1.2 in
  let sent := (handleConfirm fetch st ed).2 in
  (∃ msg, notification st'
          = Some (mkNotification ("Error al guardar: " +:+ msg) NotifyError)) ∧
  view st' = view st ∧
  (view st ≠ ViewSuccess → view st' ≠ ViewSuccess) ∧
  successMsg st' = successMsg st ∧
  ocrData st' = ocrData st ∧
  cells ed' = cells ed ∧
  originalCells ed' = originalCells ed ∧
  gridRows (cells ed') = gridRows (cells ed) ∧
  isSaving ed' = false ∧
  sent = [validationRequest st d (cells ed)] ∧
  submittedCells sent = [cells ed] ∧
  (∀ fetch', (handleConfirm fetch' st' ed').2 = sent).
Proof.
  intros Hd [m Hm]%failed_error. cbv zeta.
  rewrite handleConfirm_app, handleConfirm_editor, (handleConfirm_sent _ _ _ d Hd).
  destruct (handleValidationSave_failed fetch (cells ed) st d m Hd Hm)
    as (msg & ->).
  split_and!; try done.
  - by exists msg.
  - intros fetch'. by rewrite (handleConfirm_sent fetch' _ _ d).
Qed.

Lemma confirm_failure_leaves_state_witness :
  view (handleConfirm server_error sample_app sample_editor).1.1 = ViewEditor ∧
  cells (handleConfirm server_error sample_app sample_editor).1.2
  = [cell_row0; cell_r0c2].
Proof.
  destruct (confirm_failure_leaves_state server_error sample_app sample_editor
              (OCR.mk 12 "pendiente_validacion" 1 None))
    as (_ & Hview & _ & _ & _ & Hcells & _); [reflexivity | reflexivity |].
  split; [exact Hview | exact Hcells].
Defined.

Example confirm_server_error_message :
  notification (handleConfirm server_error sample_app sample_editor).1.1
  = Some (mkNotification
            ("Error al guardar: Fall" +:+ o_acute +:+ " validaci" +:+ o_acute
             +:+ "n (500): boom") NotifyError).
Proof. reflexivity. Qed.

Example confirm_network_error_message :
  notification (handleConfirm network_down sample_app sample_editor).1.1
  = Some (mkNotification
            ("Error al guardar: Error de conexi" +:+ o_acute +:+ "n.")
            NotifyError).
Proof. reflexivity. Qed.

Example confirm_request :
  (handleConfirm network_down sample_app sample_editor).2
  = [mkRequest "https://api/api/v1/registros/12/validacion" PUT
       (ValidationBody (mkValidation [cell_row0; cell_r0c2] "Validado por ana"))].
Proof. reflexivity. Qed.

(** On success the view does change. *)
Example confirm_success :
  view (handleConfirm (λ _, FetchResponse 200 (TextRead "{}"))
          sample_app sample_editor).1.1 = ViewSuccess.
Proof. reflexivity. Qed.

(** * The low-confidence flag: results *)

(** The number that the literal 0.85 denotes: 7656119366529843 / 2^53. *)
Lemma threshold_bits :
  Prim2SF 0.85%float = S754_finite false 7656119366529843 (-53).
Proof. reflexivity. Qed.

(** C8. A cell is flagged low-confidence exactly when its confidence is
    strictly below 0.85 in the order of the floating-point numbers: a
    cell with confidence 0.85 is not flagged, a cell with confidence
    0.84999 is flagged (and an empty grid position is never flagged). *)
Theorem low_confidence_strict (cell : MatrixCell) :
  (isLowConfidence (Some cell) = true ↔
   SFcompare (Prim2SF (confianza cell)) (Prim2SF 0.85%float) = Some Lt) ∧
  (confianza cell = 0.85%float → isLowConfidence (Some cell) = false) ∧
  (confianza cell = 0.84999%float → isLowConfidence (Some cell) = true) ∧
  isLowConfidence None = false.
Proof.
  split_and!.
  - unfold isLowConfidence. rewrite ltb_spec. unfold SFltb.
    destruct (SFcompare _ _) as [[]|]; split; congruence.
  - unfold isLowConfidence. by intros ->.
  - unfold isLowConfidence. by intros ->.
  - done.
Qed.

Lemma low_confidence_strict_witness :
  isLowConfidence (Some (mkCell (LNum 0) 0 "1" 0.85%float None None None)) = false ∧
  isLowConfidence (Some (mkCell (LNum 0) 0 "1" 0.84999%float None None None)) = true.
Proof.
  split.
  - apply (proj1 (proj2 (low_confidence_strict
             (mkCell (LNum 0) 0 "1" 0.85%float None None None)))).
    reflexivity.
  - apply (proj1 (proj2 (proj2 (low_confidence_strict
             (mkCell (LNum 0) 0 "1" 0.84999%float None None None))))).
    reflexivity.
Defined.

(** The threshold is sharp: the largest number below 0.85 is flagged. *)
Example low_confidence_next_down :
  isLowConfidence
    (Some (mkCell (LNum 0) 0 "1" (next_down 0.85%float) None None None)) = true.
Proof. reflexivity. Qed.

(** A confidence that is not a number is not flagged. *)
Example low_confidence_nan :
  isLowConfidence (Some (mkCell (LNum 0) 0 "1" nan None None None)) = false.
Proof. reflexivity. Qed.

(** * Further properties of the grid and of the edits *)

Section GridMore.

Implicit Types (flat l : list MatrixCell) (x y z : MatrixCell) (r c : Z)
  (v : string).

Lemma lastClaim_app r c l1 l2 :
  lastClaim fila col r c (l1 ++ l2)
  = match lastClaim fila col r c l2 with
    | Some y => Some y
    | None => lastClaim fila col r c l1
    end.
Proof. unfold lastClaim. by rewrite filter_app, last_app. Qed.

Lemma lastClaim_singleton r c z :
  lastClaim fila col r c [z] = if decide (at_coords r c z) then Some z else None.
Proof.
  unfold lastClaim. destruct (decide (at_coords r c z)) as [H|H].
  - by rewrite (filter_cons_True _ _ _ H), filter_nil.
  - by rewrite (filter_cons_False _ _ _ H), filter_nil.
Qed.

Lemma lastClaim_middle r c l1 z l2 :
  lastClaim fila col r c (l1 ++ z :: l2)
  = match lastClaim fila col r c l2 with
    | Some y => Some y
    | None => if decide (at_coords r c z) then Some z
              else lastClaim fila col r c l1
    end.
Proof.
  change (z :: l2) with ([z] ++ l2).
  rewrite !lastClaim_app, lastClaim_singleton.
  destruct (lastClaim fila col r c l2); [done|]. by case_decide.
Qed.

Lemma lastClaim_elem r c l x :
  lastClaim fila col r c l = Some x → x ∈ l ∧ at_coords r c x.
Proof.
  intros (k & Hk & Hx & _)%lastClaim_flat.
  split; [by eapply list_elem_of_lookup_2 | done].
Qed.

Lemma distinct_coords_NoDup flat :
  distinct_coords flat ↔ NoDup (coords <$> flat).
Proof.
  rewrite NoDup_alt. unfold distinct_coords. split.
  - intros H i j p Hi Hj. rewrite list_lookup_fmap in Hi, Hj.
    apply fmap_Some in Hi as (x & Hx & ->). apply fmap_Some in Hj as (y & Hy & E).
    by apply (H i j x y).
  - intros H i j x y Hi Hj E. apply (H i j (coords x)).
    + by rewrite list_lookup_fmap, Hi.
    + by rewrite list_lookup_fmap, Hj, E.
Qed.

Lemma lastClaim_distinct flat r c x :
  distinct_coords flat →
  lastClaim fila col r c flat = Some x ↔ x ∈ flat ∧ at_coords r c x.
Proof.
  intros Hd. split; [apply lastClaim_elem|].
  intros [[k Hk]%list_elem_of_lookup Hx]. apply lastClaim_flat.
  exists k. split_and!; [done..|]. intros m y Hm Hy Hc.
  assert (k = m); [|lia]. apply (Hd k m x y Hk Hy).
  apply at_coords_coords in Hx, Hc. congruence.
Qed.

(** Two lists whose last claimants agree at every position of the grid
    have the same grid. *)
Lemma gridRows_ext l1 l2 :
  (∀ r c, in_rows r → 0 ≤ c < 5 →
          lastClaim fila col r c l1 = lastClaim fila col r c l2) →
  gridRows l1 = gridRows l2.
Proof.
  intros H. unfold gridRows, gridRowsOf, buildRows.
  apply list_fmap_ext. intros i r [-> Hr]%lookup_seqZ. f_equal.
  apply list_fmap_ext. intros j c [-> Hc]%lookup_seqZ.
  rewrite !lookupCell_buildRowMap.
  case_decide; [|done]. apply H; [done | lia].
Qed.

Lemma cell_at_out_of_grid flat (r c : nat) :
  (5 ≤ r ∨ 5 ≤ c)%nat → cell_at (gridRows flat) r c = None.
Proof.
  intros H. unfold gridRows. rewrite cell_at_gridRowsOf.
  by rewrite decide_False by lia.
Qed.

Lemma cell_at_in_grid flat (r c : nat) :
  (r < 5)%nat → (c < 5)%nat →
  cell_at (gridRows flat) r c
  = lastClaim fila col (Z.of_nat r) (Z.of_nat c) flat.
Proof.
  intros Hr Hc. unfold gridRows. rewrite cell_at_gridRowsOf.
  by rewrite decide_True by lia.
Qed.

End GridMore.

Section EditMore.

Implicit Types (flat l : list MatrixCell) (x y z : MatrixCell) (r c : Z)
  (v : string).

(** The two ways an edit goes, on the list cut at the first cell at
    (r, c). *)
Lemma handleValueChange_middle r c v l1 x l2 :
  at_coords r c x → (∀ y, y ∈ l1 → ¬ at_coords r c y) →
  handleValueChange r c v (l1 ++ x :: l2) = l1 ++ with_valor v x :: l2.
Proof.
  intros Hx Hl1.
  assert (E : list_find (at_coords r c) (l1 ++ x :: l2) = Some (length l1, x)).
  { apply list_find_Some. split_and!; [|done|].
    - by rewrite lookup_app_r, Nat.sub_diag by lia.
    - intros j y Hj Hlt. rewrite lookup_app_l in Hj by done.
      apply Hl1. by eapply list_elem_of_lookup_2. }
  rewrite (handleValueChange_found _ _ _ _ _ _ E).
  rewrite insert_app_r_alt, Nat.sub_diag by lia. done.
Qed.

Lemma handleValueChange_cases flat r c v :
  (∃ l1 x l2, flat = l1 ++ x :: l2 ∧ at_coords r c x ∧
              (∀ y, y ∈ l1 → ¬ at_coords r c y) ∧
              handleValueChange r c v flat = l1 ++ with_valor v x :: l2) ∨
  ((∀ y, y ∈ flat → ¬ at_coords r c y) ∧
   handleValueChange r c v flat = flat ++ [newCell r c v]).
Proof.
  destruct (list_find (at_coords r c) flat) as [[i x]|] eqn:E.
  - left. pose proof E as (Hi & Hx & Hfirst)%list_find_Some.
    exists (take i flat), x, (drop (S i) flat).
    assert (Hsplit : flat = take i flat ++ x :: drop (S i) flat)
      by (symmetry; by apply take_drop_middle).
    assert (Hnone : ∀ y, y ∈ take i flat → ¬ at_coords r c y).
    { intros y [j [Hj Hlt]%lookup_take_Some]%list_elem_of_lookup.
      by apply (Hfirst j y). }
    split_and!; [done..|].
    rewrite Hsplit at 1. by apply handleValueChange_middle.
  - right. assert (Hnone : ∀ y, y ∈ flat → ¬ at_coords r c y).
    { intros y Hy. apply list_find_None in E.
      by apply (proj1 (Forall_forall _ _) E y). }
    split; [done|]. by apply handleValueChange_absent.
Qed.

Lemma lastClaim_none r c l :
  (∀ y, y ∈ l → ¬ at_coords r c y) → lastClaim fila col r c l = None.
Proof. intros H. by apply lastClaim_None. Qed.

(** An edit at (r, c) does not change what another position shows. *)
Lemma lastClaim_edit_other flat r c v r' c' :
  (r', c') ≠ (r, c) →
  lastClaim fila col r' c' (handleValueChange r c v flat)
  = lastClaim fila col r' c' flat.
Proof.
  intros Hne.
  destruct (handleValueChange_cases flat r c v)
    as [(l1 & x & l2 & -> & Hx & _ & ->)|[_ ->]].
  - rewrite !lastClaim_middle.
    assert (¬ at_coords r' c' x).
    { intros [<- <-]. destruct Hx as [<- <-]. by apply Hne. }
    assert (¬ at_coords r' c' (with_valor v x)) by done.
    by rewrite !decide_False by done.
  - rewrite lastClaim_app, lastClaim_singleton.
    rewrite decide_False; [done|]. intros [<- <-]. by apply Hne.
Qed.

(** What an edit at (r, c) makes of the position (r, c) itself. *)
Lemma lastClaim_edit_same flat r c v :
  ∃ x', lastClaim fila col r c (handleValueChange r c v flat) = Some x' ∧
        match lastClaim fila col r c flat with
        | Some x => confianza x' = confianza x ∧
                    (distinct_coords flat → x' = with_valor v x)
        | None => x' = newCell r c v
        end.
Proof.
  destruct (handleValueChange_cases flat r c v)
    as [(l1 & x & l2 & -> & Hx & Hl1 & ->)|[Hnone ->]].
  - rewrite !lastClaim_middle.
    rewrite !decide_True by done.
    destruct (lastClaim fila col r c l2) as [y|] eqn:E.
    + exists y. split_and!; [done..|]. intros Hd%distinct_coords_NoDup.
      apply lastClaim_elem in E as [Hy Hcy].
      rewrite fmap_app, fmap_cons in Hd.
      apply NoDup_app in Hd as (_ & _ & [Hnot _]%NoDup_cons).
      destruct Hnot. apply list_elem_of_fmap. exists y. split; [|done].
      apply at_coords_coords in Hx, Hcy. congruence.
    + by exists (with_valor v x).
  - rewrite lastClaim_app, lastClaim_singleton, decide_True by done.
    exists (newCell r c v). by rewrite (lastClaim_none _ _ _ Hnone).
Qed.

Lemma distinct_coords_edit flat r c v :
  distinct_coords flat → distinct_coords (handleValueChange r c v flat).
Proof.
  rewrite !distinct_coords_NoDup.
  destruct (handleValueChange_cases flat r c v)
    as [(l1 & x & l2 & -> & Hx & Hl1 & ->)|[Hnone ->]].
  - by rewrite !fmap_app, !fmap_cons.
  - intros Hd. rewrite fmap_app. apply NoDup_app.
    split_and!; [done| |apply NoDup_singleton].
    intros p Hp ->%list_elem_of_singleton.
    apply list_elem_of_fmap in Hp as (y & Hy & Hin).
    apply (Hnone y Hin). by apply at_coords_coords.
Qed.

Lemma distinct_coords_edits edits flat :
  distinct_coords flat → distinct_coords (applyEdits edits flat).
Proof.
  unfold applyEdits. revert flat.
  induction edits as [|e edits IH]; intros flat Hd; simpl; [done|].
  apply IH. by apply distinct_coords_edit.
Qed.

End EditMore.

(** * The grid builder: further results *)

(** X1. A position of the grid is empty exactly when it is outside the
    5 x 5 grid or no cell of the flat list has that parsed row index and
    that column. *)
Theorem grid_position_empty_iff (flat : list MatrixCell) (r c : nat) :
  cell_at (gridRows flat) r c = None ↔
  (5 ≤ r)%nat ∨ (5 ≤ c)%nat ∨
  ∀ x, x ∈ flat →
       ¬ (parseRowIndex (fila x) = Z.of_nat r ∧ col x = Z.of_nat c).
Proof.
  destruct (decide (5 ≤ r)%nat) as [Hr|Hr].
  { rewrite cell_at_out_of_grid by lia. split; auto. }
  destruct (decide (5 ≤ c)%nat) as [Hc|Hc].
  { rewrite cell_at_out_of_grid by lia. split; auto. }
  rewrite cell_at_in_grid by lia. rewrite (lastClaim_None fila col). split.
  - intros H. right. right. exact H.
  - intros [?|[?|H]]; [lia..|exact H].
Qed.

(** X2. Every cell that the grid shows is a cell of the flat list and
    sits at the row it parses to and at its own column, both in 0..4; so a
    cell whose column is outside 0..4 is in no row of the grid, although
    the loop stores it in the lookup map. *)
Theorem grid_shows_cells_at_their_coordinates (flat : list MatrixCell) :
  (∀ (r c : nat) (x : MatrixCell),
     cell_at (gridRows flat) r c = Some x →
     x ∈ flat ∧ parseRowIndex (fila x) = Z.of_nat r ∧ col x = Z.of_nat c ∧
     (r < 5)%nat ∧ (c < 5)%nat) ∧
  (∀ x : MatrixCell,
     ¬ (0 ≤ col x ≤ 4) →
     ∀ row, row ∈ gridRows flat → Some x ∉ columns row).
Proof.
  split.
  - intros r c x H.
    destruct (decide (r < 5 ∧ c < 5)%nat) as [[Hr Hc]|Hn].
    + rewrite cell_at_in_grid in H by done.
      apply lastClaim_elem in H as [Hin [Hx1 Hx2]]. by split_and!.
    + rewrite cell_at_out_of_grid in H by lia. discriminate.
  - intros x Hcol row Hrow Hx.
    destruct (gridRowsOf_elem _ _ _ _ _ Hrow Hx) as (c & _ & Hc & Hlast).
    apply lastClaim_elem in Hlast as [_ [_ Hxc]]. unfold Number_ in Hxc. lia.
Qed.

Lemma grid_shows_cells_at_their_coordinates_witness :
  col (newCell 2 5 "9") = 5 ∧
  ∀ row, row ∈ gridRows [cell_row0; newCell 2 5 "9"] →
         Some (newCell 2 5 "9") ∉ columns row.
Proof.
  split; [reflexivity|].
  apply (proj2 (grid_shows_cells_at_their_coordinates
                  [cell_row0; newCell 2 5 "9"]) (newCell 2 5 "9")).
  simpl. lia.
Defined.

(** X3. When no two cells parse to the same coordinate, no cell of the
    5 x 5 range is lost: every cell of the flat list whose parsed row and
    whose column are in 0..4 is shown, at its own position. *)
Theorem distinct_cells_all_shown (flat : list MatrixCell) (x : MatrixCell) :
  distinct_coords flat → x ∈ flat →
  0 ≤ parseRowIndex (fila x) ≤ 4 → 0 ≤ col x ≤ 4 →
  cell_at (gridRows flat) (Z.to_nat (parseRowIndex (fila x))) (Z.to_nat (col x))
  = Some x.
Proof.
  intros Hd Hin Hr Hc.
  rewrite cell_at_gridRows by (unfold in_rows, FIXED_ROW_COUNT; lia).
  by apply lastClaim_distinct.
Qed.

Lemma distinct_cells_all_shown_witness :
  cell_at (gridRows [cell_row0; cell_r0c2]) 0 2 = Some cell_r0c2.
Proof.
  apply (distinct_cells_all_shown [cell_row0; cell_r0c2] cell_r0c2).
  - intros i j x y Hi Hj.
    destruct i as [|[|i]], j as [|[|j]]; try done;
      injection Hi as <-; injection Hj as <-; vm_compute; discriminate.
  - apply list_elem_of_lookup. exists 1%nat. reflexivity.
  - vm_compute. split; discriminate.
  - vm_compute. split; discriminate.
Defined.

(** X4. When no two cells parse to the same coordinate, the grid does not
    depend on the order of the flat list: a permutation of the list gives
    the same grid. *)
Theorem grid_order_irrelevant (flat flat' : list MatrixCell) :
  distinct_coords flat → flat ≡ₚ flat' → gridRows flat' = gridRows flat.
Proof.
  intros Hd Hp.
  assert (Hd' : distinct_coords flat').
  { apply distinct_coords_NoDup. rewrite <- Hp. by apply distinct_coords_NoDup. }
  apply gridRows_ext. intros r c _ _. apply option_eq. intros x.
  rewrite !lastClaim_distinct by done. by rewrite Hp.
Qed.

Lemma grid_order_irrelevant_witness :
  gridRows [cell_r0c2; cell_row0] = gridRows [cell_row0; cell_r0c2].
Proof.
  apply grid_order_irrelevant.
  - intros i j x y Hi Hj.
    destruct i as [|[|i]], j as [|[|j]]; try done;
      injection Hi as <-; injection Hj as <-; vm_compute; discriminate.
  - apply Permutation_swap.
Defined.

(** With duplicates the order matters. *)
Example grid_order_matters_with_duplicates :
  cell_at (gridRows [dup_early; dup_late]) 1 3
  ≠ cell_at (gridRows [dup_late; dup_early]) 1 3.
Proof. vm_compute. discriminate. Qed.

(** * The edit mutator: further results *)

Lemma same_but_value_refl x : same_but_value x x.
Proof. by unfold same_but_value. Qed.

Lemma same_but_value_trans x y z :
  same_but_value x y → same_but_value y z → same_but_value x z.
Proof. unfold same_but_value. intros (?&?&?&?&?&?) (?&?&?&?&?&?). split_and!; congruence. Qed.

Lemma handleValueChange_keeps flat r c v k x :
  flat !! k = Some x →
  ∃ x', handleValueChange r c v flat !! k = Some x' ∧ same_but_value x x'.
Proof.
  intros Hk.
  destruct (handleValueChange_cases flat r c v)
    as [(l1 & y & l2 & -> & Hy & Hl1 & ->)|[Hnone ->]].
  - apply lookup_app_Some in Hk as [Hk|[Hlen Hk]].
    + exists x. split; [by apply lookup_app_l_Some | apply same_but_value_refl].
    + rewrite lookup_app_r by done.
      destruct (k - length l1)%nat as [|m] eqn:E; simpl in *.
      * injection Hk as ->. by exists (with_valor v x).
      * exists x. split; [done | apply same_but_value_refl].
  - exists x. split; [by apply lookup_app_l_Some | apply same_but_value_refl].
Qed.

Lemma length_handleValueChange flat r c v :
  (length flat ≤ length (handleValueChange r c v flat) ≤ S (length flat))%nat.
Proof.
  destruct (handleValueChange_cases flat r c v)
    as [(l1 & y & l2 & -> & Hy & Hl1 & ->)|[Hnone ->]];
    rewrite ?length_app; simpl; lia.
Qed.

Lemma setValue_frame_aux flat r c v (r' c' : nat) :
  (Z.of_nat r', Z.of_nat c') ≠ (r, c) →
  cell_at (gridRows (handleValueChange r c v flat)) r' c'
  = cell_at (gridRows flat) r' c'.
Proof.
  intros Hne.
  destruct (decide (r' < 5 ∧ c' < 5)%nat) as [[Hr Hc]|Hn].
  - rewrite !cell_at_in_grid by done. by apply lastClaim_edit_other.
  - by rewrite !cell_at_out_of_grid by lia.
Qed.


(** X5. An edit at (r, c) leaves every other position of the grid as it
    was, for every flat list. *)
Theorem setValue_other_positions
  (flat : list MatrixCell) (r c : Z) (v : string) (r' c' : nat) :
  (Z.of_nat r', Z.of_nat c') ≠ (r, c) →
  cell_at (gridRows (handleValueChange r c v flat)) r' c'
  = cell_at (gridRows flat) r' c'.
Proof.
  intros Hne.
  destruct (decide (r' < 5 ∧ c' < 5)%nat) as [[Hr Hc]|Hn].
  - rewrite !cell_at_in_grid by done. by apply lastClaim_edit_other.
  - by rewrite !cell_at_out_of_grid by lia.
Qed.

Lemma setValue_other_positions_witness :
  cell_at (gridRows (handleValueChange 0 2 "7" [cell_row0; cell_r0c2])) 0 0
  = cell_at (gridRows [cell_row0; cell_r0c2]) 0 0.
Proof.
  apply (setValue_other_positions [cell_row0; cell_r0c2] 0 2 "7" 0 0).
  discriminate.
Defined.

(** X6. A sequence of edits never removes or moves a cell and never
    changes anything but values: each cell of the flat list is still at
    its position afterwards, with the same row label, column, confidence,
    reference id and other properties; and the list grows by at most one
    cell for each edit. *)
Theorem edits_preserve_cells (edits : list Edit) (flat : list MatrixCell) :
  (length flat ≤ length (applyEdits edits flat)
   ≤ length flat + length edits)%nat ∧
  ∀ (k : nat) (x : MatrixCell), flat !! k = Some x →
    ∃ x', applyEdits edits flat !! k = Some x' ∧
          fila x' = fila x ∧ col x' = col x ∧
          confianza x' = confianza x ∧ ref_id x' = ref_id x ∧
          recorte_base64 x' = recorte_base64 x ∧
          valor_original x' = valor_original x.
Proof.
  unfold applyEdits. revert flat.
  induction edits as [|e edits IH]; intros flat; simpl.
  - split; [lia|]. intros k x Hk. by exists x.
  - destruct (IH (applyEdit flat e)) as [Hlen Hcells].
    pose proof (length_handleValueChange flat (edit_row e) (edit_col e)
                  (edit_value e)) as Hone.
    unfold applyEdit in *. split; [lia|].
    intros k x Hk.
    destruct (handleValueChange_keeps flat (edit_row e) (edit_col e)
                (edit_value e) k x Hk) as (x1 & Hk1 & H1).
    destruct (Hcells k x1 Hk1) as (x' & Hk' & H').
    exists x'. split; [done|].
    by apply (same_but_value_trans x x1 x').
Qed.

(** X7. An edit keeps the invariant of the data model: when no two cells
    parse to the same coordinate, the same holds after any sequence of
    edits. *)
Theorem edits_keep_distinct (edits : list Edit) (flat : list MatrixCell) :
  distinct_coords flat → distinct_coords (applyEdits edits flat).
Proof.
  unfold applyEdits. revert flat.
  induction edits as [|e edits IH]; intros flat Hd; simpl; [done|].
  apply IH. unfold applyEdit. by apply distinct_coords_edit.
Qed.

Lemma edits_keep_distinct_witness :
  length (applyEdits [mkEdit 0 2 "7"; mkEdit 3 3 "X"; mkEdit 3 3 "2"]
            [cell_row0; cell_r0c2]) = 3%nat ∧
  distinct_coords
    (applyEdits [mkEdit 0 2 "7"; mkEdit 3 3 "X"; mkEdit 3 3 "2"]
       [cell_row0; cell_r0c2]).
Proof.
  split; [reflexivity|].
  apply edits_keep_distinct.
  intros i j x y Hi Hj.
  destruct i as [|[|i]], j as [|[|j]]; try done;
    injection Hi as <-; injection Hj as <-; vm_compute; discriminate.
Defined.

Lemma lastEditAt_snoc r c edits e :
  lastEditAt r c (edits ++ [e])
  = if decide (edit_at r c e) then Some (edit_value e) else lastEditAt r c edits.
Proof.
  unfold lastEditAt. rewrite filter_app. case_decide as H.
  - by rewrite (filter_cons_True _ _ _ H), filter_nil, last_snoc.
  - by rewrite (filter_cons_False _ _ _ H), filter_nil, app_nil_r.
Qed.

(** X8. When no two cells parse to the same coordinate, after any
    sequence of edits each position of the grid shows the value of the
    last edit that went to it, and a position that no edit went to shows
    the value it showed before. *)
Theorem edits_show_last_value
  (edits : list Edit) (flat : list MatrixCell) (r c : nat) :
  distinct_coords flat → (r < 5)%nat → (c < 5)%nat →
  valor <$> cell_at (gridRows (applyEdits edits flat)) r c
  = match lastEditAt (Z.of_nat r) (Z.of_nat c) edits with
    | Some v => Some v
    | None => valor <$> cell_at (gridRows flat) r c
    end.
Proof.
  intros Hd Hr Hc. induction edits as [|e edits IH] using rev_ind; [done|].
  unfold applyEdits. rewrite foldl_snoc. fold (applyEdits edits flat).
  rewrite lastEditAt_snoc. unfold applyEdit at 1.
  destruct (decide (edit_at (Z.of_nat r) (Z.of_nat c) e)) as [[Her Hec]|Hne].
  - rewrite Her, Hec, cell_at_in_grid by done.
    pose proof (distinct_coords_edits edits flat Hd) as Hd'.
    destruct (lastClaim_edit_same (applyEdits edits flat) (Z.of_nat r)
                (Z.of_nat c) (edit_value e)) as (x' & -> & Hx').
    simpl. f_equal.
    destruct (lastClaim fila col _ _ (applyEdits edits flat)) as [x|].
    + destruct Hx' as [_ Hx']. by rewrite (Hx' Hd').
    + by rewrite Hx'.
  - rewrite setValue_frame_aux; [exact IH|].
    intros [= E1 E2]. by apply Hne.
Qed.

Lemma edits_show_last_value_witness :
  valor <$> cell_at
              (gridRows
                 (applyEdits [mkEdit 0 2 "7"; mkEdit 3 3 "X"; mkEdit 0 2 "8"]
                    [cell_row0; cell_r0c2])) 0 2
  = Some "8".
Proof.
  apply (edits_show_last_value
           [mkEdit 0 2 "7"; mkEdit 3 3 "X"; mkEdit 0 2 "8"]
           [cell_row0; cell_r0c2] 0 2); [|lia|lia].
  intros i j x y Hi Hj.
  destruct i as [|[|i]], j as [|[|j]]; try done;
    injection Hi as <-; injection Hj as <-; vm_compute; discriminate.
Defined.

(** X9. Of two edits in a row at the same coordinate only the second
    counts: the list is the one that the second edit alone gives. In
    particular an edit done twice is the edit done once, and an edit at a
    new coordinate adds one cell, not one for each keystroke. *)
Theorem setValue_overwrite
  (flat : list MatrixCell) (r c : Z) (v1 v2 : string) :
  handleValueChange r c v2 (handleValueChange r c v1 flat)
  = handleValueChange r c v2 flat.
Proof.
  destruct (handleValueChange_cases flat r c v1)
    as [(l1 & x & l2 & -> & Hx & Hl1 & ->)|[Hnone ->]].
  - rewrite (handleValueChange_middle r c v2 l1 x l2 Hx Hl1).
    by rewrite (handleValueChange_middle r c v2 l1 (with_valor v1 x) l2).
  - rewrite (handleValueChange_absent flat r c v2 Hnone).
    by rewrite (handleValueChange_middle r c v2 flat (newCell r c v1) []).
Qed.

(** X10. An edit never changes which positions of the grid are flagged
    low-confidence: the edited cell keeps its confidence, a cell created by
    an edit has confidence 1.0, and the other positions are left alone. *)
Theorem setValue_keeps_flags
  (flat : list MatrixCell) (r c : Z) (v : string) (r' c' : nat) :
  isLowConfidence (cell_at (gridRows (handleValueChange r c v flat)) r' c')
  = isLowConfidence (cell_at (gridRows flat) r' c').
Proof.
  destruct (decide (r' < 5 ∧ c' < 5)%nat) as [[Hr Hc]|Hn];
    [|by rewrite !cell_at_out_of_grid by lia].
  rewrite !cell_at_in_grid by done.
  destruct (decide ((Z.of_nat r', Z.of_nat c') = (r, c))) as [[= <- <-]|Hne];
    [|by rewrite lastClaim_edit_other].
  destruct (lastClaim_edit_same flat (Z.of_nat r') (Z.of_nat c') v)
    as (x' & -> & Hx').
  destruct (lastClaim fila col _ _ flat) as [x|].
  - destruct Hx' as [Hconf _]. simpl. by rewrite Hconf.
  - by rewrite Hx'.
Qed.

(** * The feedback serializer: further results *)

Section FeedbackMore.

Implicit Types (flat snapshot : list MatrixCell) (x y : MatrixCell).

Lemma feedbackError_failed outcome :
  is_Some (feedbackError outcome) ↔ failed outcome.
Proof.
  destruct outcome as [m|status text]; simpl.
  - split; eauto.
  - destruct (response_ok status).
    + split; [by intros [? ?] | done].
    + destruct text; split; eauto.
Qed.




End FeedbackMore.

(** X11. Sending feedback never touches the cells: whatever the network
    answers, the flat list and the Snapshot are what they were, the
    view, the document and the success message are unchanged, the
    training flag is off again, exactly one POST request goes to the
    feedback endpoint, and the notification is a success notification
    exactly when the request did not fail. *)
Theorem feedback_leaves_editor
  (fetch : Request → FetchOutcome) (baseUrl : string) (data : OCR.t)
  (st : AppState) (ed : EditorState) :
  let st' := (handleSendFeedback fetch baseUrl data st ed).1.1.1 in
  let ed' := (handleSendFeedback fetch baseUrl data st ed).1.1.2 in
  let sent := (handleSendFeedback fetch baseUrl data st ed).1.2 in
  cells ed' = cells ed ∧ originalCells ed' = originalCells ed ∧
  isSaving ed' = isSaving ed ∧ isTraining ed' = false ∧
  view st' = view st ∧ ocrData st' = ocrData st ∧
  successMsg st' = successMsg st ∧
  (∃ req, sent = [req] ∧ method req = POST ∧
          url req = baseUrl +:+ "/api/v1/training/feedback" ∧
          (type <$> notification st' = Some NotifySuccess ↔
           ¬ failed (fetch req)) ∧
          (failed (fetch req) →
           ∃ msg, notification st'
                  = Some (mkNotification ("Error al enviar feedback: " +:+ msg)
                            NotifyError))).
Proof.
  cbv zeta. unfold handleSendFeedback. cbn [fst snd].
  set (req := mkRequest _ POST _).
  split_and!; try by destruct (feedbackError (fetch req)).
  exists req. split_and!; [done..| |].
  - rewrite <- feedbackError_failed.
    destruct (feedbackError (fetch req)) as [m|] eqn:E; simpl.
    + split; [discriminate|]. intros H. destruct H. eauto.
    + split; [|done]. intros _ [? ?]. discriminate.
  - intros [m Hm]%feedbackError_failed. rewrite Hm. by exists m.
Qed.



(** X13. A warning is logged for exactly the records of the cells that
    have no reference id or an empty one, in list order, and logging does
    not drop them: they are in the payload like all the others. *)
Theorem feedback_warnings (flat snapshot : list MatrixCell) :
  consoleWarnings (corrections flat snapshot)
  = correction snapshot
      <$> filter (λ x, default EmptyString (ref_id x) = EmptyString) flat ∧
  ∀ w, w ∈ consoleWarnings (corrections flat snapshot) →
       Corr.ref_id w = EmptyString ∧
       w ∈ validCorrections (corrections flat snapshot).
Proof.
  assert (Heq : consoleWarnings (corrections flat snapshot)
                = correction snapshot
                    <$> filter (λ x, default EmptyString (ref_id x) = EmptyString) flat).
  { unfold consoleWarnings, corrections.
    induction flat as [|x flat IH]; [done|].
    rewrite fmap_cons. cbn [List.filter]. rewrite IH.
    destruct (decide (default EmptyString (ref_id x) = EmptyString)) as [H|H].
    - rewrite filter_cons, (decide_True _ _ H).
      replace (warned (correction snapshot x)) with true; [done|].
      unfold warned. cbn [correction Corr.ref_id].
      destruct (ref_id x); simpl in *; by subst.
    - rewrite filter_cons, (decide_False _ _ H).
      replace (warned (correction snapshot x)) with false; [done|].
      unfold warned. cbn [correction Corr.ref_id].
      destruct (ref_id x) as [s|]; simpl in *; [|done].
      symmetry. by apply String.eqb_neq. }
  split; [done|]. intros w Hw. rewrite validCorrections_all.
  rewrite Heq in Hw. apply list_elem_of_fmap in Hw as (x & -> & Hx).
  apply list_elem_of_filter in Hx as [Hid Hin]. split.
  - simpl. by destruct (ref_id x).
  - unfold corrections. apply list_elem_of_fmap. by exists x.
Qed.

(** * The original value shown beside an input: results *)

Section InlineParser.

Local Open Scope char_scope.

Lemma space_not_digit c : Chars.is_space c = true → Chars.is_digit c = false.
Proof.
  intros H. destruct (Chars.is_digit c) eqn:E; [|done].
  apply digit_not_space in E. congruence.
Qed.

Lemma fila_letter_not_digit c :
  (c = "F" ∨ c = "f" ∨ c = "I" ∨ c = "i" ∨ c = "L" ∨ c = "l" ∨ c = "A" ∨ c = "a") →
  Chars.is_digit c = false.
Proof. intros [->|[->|[->|[->|[->|[->|[->| ->]]]]]]]; reflexivity. Qed.

Lemma first_digits_skip s rest :
  Str.all_chars (λ c, negb (Chars.is_digit c)) s = true →
  first_digits (s +:+ rest) = first_digits rest.
Proof.
  induction s as [|c s IH]; [done|]. simpl.
  intros [Hc Hs]%andb_true_iff. apply negb_true_iff in Hc. rewrite Hc. auto.
Qed.

Lemma first_digits_digits ds :
  digit_string ds → first_digits ds = Some ds.
Proof.
  intros [Hall Hne]%digit_string_chars. destruct ds as [|c ds]; [done|].
  pose proof Hall as Hall'. simpl in Hall'.
  apply andb_true_iff in Hall' as [Hc _].
  cbn [first_digits]. rewrite Hc. f_equal.
  pose proof (take_while_app Chars.is_digit (String c ds) EmptyString Hall) as H.
  assert (Hnil : ∀ s : string, s +:+ EmptyString = s).
  { clear. intros s. induction s as [|a s IH]; [done|].
    change (String a s +:+ EmptyString) with (String a (s +:+ EmptyString)).
    by rewrite IH. }
  rewrite Hnil in H. rewrite H. simpl. apply Hnil.
Qed.

Lemma first_digits_fila f ws ds :
  fila_word f → blank ws → digit_string ds →
  first_digits (f +:+ ws +:+ ds) = Some ds.
Proof.
  intros (a & b & c & d & -> & Ha & Hb & Hc & Hd) Hws Hds.
  rewrite first_digits_skip.
  - rewrite first_digits_skip; [by apply first_digits_digits|].
    clear -Hws. induction ws as [|x ws IH]; [done|]. simpl in *.
    apply andb_true_iff in Hws as [Hx Hws].
    by rewrite (space_not_digit x Hx), IH.
  - simpl. rewrite !fila_letter_not_digit; [done|..]; tauto.
Qed.

Lemma first_digits_none s :
  Str.all_chars (λ c, negb (Chars.is_digit c)) s = true →
  first_digits s = None.
Proof.
  induction s as [|c s IH]; [done|]. simpl.
  intros [Hc Hs]%andb_true_iff. apply negb_true_iff in Hc. rewrite Hc. auto.
Qed.

Lemma standard_label_agree l :
  standard_label l → inlineRowIndex l = parseRowIndex l.
Proof.
  intros [[n ->]|(f & ws & ds & -> & Hf & Hws & Hds)]; [done|].
  destruct Hds as [n Hn].
  rewrite (parseRowIndex_fila f ws ds n Hf Hws Hn).
  unfold inlineRowIndex.
  rewrite (first_digits_fila f ws ds Hf Hws (ex_intro _ n Hn)).
  by rewrite (parseInt10_denotes ds n Hn).
Qed.

End InlineParser.

(** X14. The row index that the rendering code computes in place for a
    Snapshot cell agrees with the row-label parser on numeric labels and
    on labels made of the word "Fila", white space and digits; on a label
    that is a bare string of digits it is what the parser gives less one,
    subtracted as numbers: exactly one less when the digits denote at
    most 2^53, and for instance two less on "9007199254740994"; and a
    label without any digit gives -1. *)
Theorem inline_row_index_vs_parser :
  (∀ l, standard_label l → inlineRowIndex l = parseRowIndex l) ∧
  (∀ ds n, denotes ds n →
           inlineRowIndex (LStr ds) = F64.sub (parseRowIndex (LStr ds)) 1 ∧
           (Z.of_N n ≤ MAX_EXACT →
            inlineRowIndex (LStr ds) = parseRowIndex (LStr ds) - 1)) ∧
  inlineRowIndex (LStr "9007199254740994")
  = parseRowIndex (LStr "9007199254740994") - 2 ∧
  (∀ s, Str.all_chars (λ c, negb (Chars.is_digit c)) s = true →
        inlineRowIndex (LStr s) = -1).
Proof.
  split_and!.
  - apply standard_label_agree.
  - intros ds n Hn.
    assert (Hi : inlineRowIndex (LStr ds)
                 = F64.sub (parseRowIndex (LStr ds)) 1).
    { rewrite (parseRowIndex_digits ds n Hn). unfold inlineRowIndex.
      rewrite (first_digits_digits ds (ex_intro _ n Hn)).
      by rewrite (parseInt10_denotes ds n Hn). }
    split; [done|]. intros Hb. rewrite Hi.
    rewrite (parseRowIndex_digits_exact ds n Hn Hb).
    apply F64_sub_exact. unfold MAX_EXACT in Hb. lia.
  - by vm_compute.
  - intros s Hs. unfold inlineRowIndex. by rewrite (first_digits_none s Hs).
Qed.

Lemma inline_row_index_vs_parser_witness :
  inlineRowIndex (LStr "3") = F64.sub (parseRowIndex (LStr "3")) 1 ∧
  inlineRowIndex (LStr "3") = parseRowIndex (LStr "3") - 1.
Proof.
  assert (Hd : denotes "3" 3).
  { exists (Decimal.D3 Decimal.Nil).
    split_and!; [reflexivity | discriminate | reflexivity]. }
  destruct (proj1 (proj2 inline_row_index_vs_parser) "3" 3%N Hd) as [H1 H2].
  split; [exact H1 | apply H2; by vm_compute].
Defined.

Lemma list_find_agree {A} (P Q : A → Prop) `{∀ x, Decision (P x)}
  `{∀ x, Decision (Q x)} (l : list A) :
  (∀ x, x ∈ l → P x ↔ Q x) → list_find P l = list_find Q l.
Proof.
  induction l as [|x l IH]; intros Hl; [done|]. simpl.
  rewrite (decide_ext (P x) (Q x)) by (apply Hl; left).
  rewrite IH; [done|]. intros y Hy. apply Hl. by right.
Qed.

(** X15. When every row label of the Snapshot is a number or has the
    form "Fila N", the attribute [data-original] of the input at the
    position of a cell is the original value that the feedback records
    for that cell. *)
Theorem data_original_is_feedback_original
  (snapshot : list MatrixCell) (x : MatrixCell) :
  (∀ oc, oc ∈ snapshot → standard_label (fila oc)) →
  dataOriginal snapshot (parseRowIndex (fila x)) (col x)
  = Corr.valor_original (correction snapshot x).
Proof.
  intros Hstd. unfold dataOriginal, originalCellAt, correction.
  cbn [Corr.valor_original].
  rewrite (list_find_agree
             (inline_at (parseRowIndex (fila x)) (col x))
             (at_coords (parseRowIndex (fila x)) (Number_ (col x))) snapshot);
    [done|].
  intros oc Hoc. unfold inline_at, at_coords.
  by rewrite (standard_label_agree (fila oc) (Hstd oc Hoc)).
Qed.

Lemma data_original_is_feedback_original_witness :
  dataOriginal [snap_r1c1] 1 1 = Corr.valor_original (correction [snap_r1c1] cur_r1c1).
Proof.
  apply (data_original_is_feedback_original [snap_r1c1] cur_r1c1).
  intros oc ->%list_elem_of_singleton. right.
  exists "Fila", " ", "2". split_and!.
  - reflexivity.
  - exists "F"%char, "i"%char, "l"%char, "a"%char. split_and!; auto.
  - reflexivity.
  - exists 2%N, (Decimal.D2 Decimal.Nil).
    split_and!; [reflexivity | discriminate | reflexivity].
Defined.

(** With a Snapshot label that is a bare string of digits the two differ:
    the attribute is looked up one row higher. *)
Example data_original_bare_digits :
  let oc := mkCell (LStr "1") 1 "5" 0.9%float None None None in
  Corr.valor_original (correction [oc] oc) = "5" ∧
  dataOriginal [oc] 1 1 = "" ∧ dataOriginal [oc] 0 1 = "5".
Proof. by vm_compute. Qed.

(** * The zoom of the reference image: results *)

Lemma zoomStep_levels (z : float) (click : ZoomClick) :
  z ∈ zoom_levels → zoomStep z click ∈ zoom_levels.
Proof.
  unfold zoom_levels. intros H.
  repeat (apply elem_of_cons in H as [->|H]);
    [destruct click; vm_compute; set_solver ..|].
  by apply elem_of_nil in H.
Qed.

Lemma zoomAfter_levels (clicks : list ZoomClick) : zoomAfter clicks ∈ zoom_levels.
Proof.
  unfold zoomAfter. induction clicks as [|click clicks IH] using rev_ind.
  - simpl. unfold zoom_levels. set_solver.
  - rewrite foldl_snoc. by apply zoomStep_levels.
Qed.

(** X16. Whatever the sequence of clicks on the two zoom buttons, the zoom
    level is one of 1, 1.5, 2, 2.5, 3, 3.5 and 4: it stays between 1 and
    4, zooming in at 4 and zooming out at 1 change nothing, and below 4 a
    zoom out undoes a zoom in. *)
Theorem zoom_stays_in_range (clicks : list ZoomClick) :
  let z := zoomAfter clicks in
  z ∈ zoom_levels ∧
  PrimFloat.leb 1 z = true ∧ PrimFloat.leb z 4 = true ∧
  (z = 4%float → handleZoomIn z = z) ∧
  (z = 1%float → handleZoomOut z = z) ∧
  (z ≠ 4%float → handleZoomOut (handleZoomIn z) = z).
Proof.
  cbv zeta. pose proof (zoomAfter_levels clicks) as H.
  split; [done|]. revert H. generalize (zoomAfter clicks). intros z H.
  unfold zoom_levels in H.
  repeat (apply elem_of_cons in H as [->|H]);
    [split_and!; first [reflexivity | by intros _ | by intros ?] ..|].
  by apply elem_of_nil in H.
Qed.

(** * The root component: results *)

Section Slashes.

#[local] Arguments String.append !_ _ : simpl nomatch.

Implicit Types (s t : string).

Lemma strip_empty_iff s :
  stripTrailingSlashes s = EmptyString ↔ Str.all_chars is_slash s = true.
Proof.
  destruct s as [|c s]; [done|]. cbn [stripTrailingSlashes].
  destruct (Str.all_chars is_slash (String c s)); [done|]. split; discriminate.
Qed.

Lemma strip_decompose s :
  ∃ t, s = stripTrailingSlashes s +:+ t ∧ Str.all_chars is_slash t = true.
Proof.
  induction s as [|c s (t & Ht & Hall)].
  - by exists EmptyString.
  - cbn [stripTrailingSlashes].
    destruct (Str.all_chars is_slash (String c s)) eqn:E.
    + by exists (String c s).
    + exists t. split; [|done]. simpl. by rewrite <- Ht.
Qed.

Lemma all_slash_append s t :
  Str.all_chars is_slash (s +:+ t)
  = Str.all_chars is_slash s && Str.all_chars is_slash t.
Proof.
  induction s as [|c s IH]; [done|]. simpl. by rewrite IH, andb_assoc.
Qed.

Lemma strip_no_trailing_slash s : ¬ ends_with_slash (stripTrailingSlashes s).
Proof.
  induction s as [|c s IH]; intros [s' Hs'].
  - destruct s'; discriminate.
  - cbn [stripTrailingSlashes] in Hs'.
    destruct (Str.all_chars is_slash (String c s)) eqn:E.
    + destruct s'; discriminate.
    + destruct s' as [|c' s']; simpl in Hs'.
      * injection Hs' as -> Hs. apply strip_empty_iff in Hs.
        simpl in E. rewrite Hs in E. discriminate.
      * injection Hs' as -> Hs. apply IH. by exists s'.
Qed.

Lemma strip_fixpoint s : ¬ ends_with_slash s → stripTrailingSlashes s = s.
Proof.
  induction s as [|c s IH]; intros Hs; [done|]. cbn [stripTrailingSlashes].
  destruct (Str.all_chars is_slash (String c s)) eqn:E.
  - destruct Hs. clear IH. revert c E.
    induction s as [|d s IHs]; intros c E.
    + exists EmptyString. simpl in E. rewrite andb_true_r in E.
      unfold is_slash in E. apply Ascii.eqb_eq in E. by subst.
    + simpl in E. apply andb_true_iff in E as [Hc E].
      destruct (IHs d E) as [s' Hs']. exists (String c s'). simpl. by rewrite <- Hs'.
  - f_equal. apply IH. intros [s' ->]. apply Hs. by exists (String c s').
Qed.

End Slashes.

(** X17. Removing the trailing slashes of an address splits it into the
    result and a run of slashes; the result does not end with a slash; an
    address that does not end with a slash is left as it is, so doing it
    twice is doing it once. *)
Theorem stripTrailingSlashes_spec (s : string) :
  (∃ t, s = stripTrailingSlashes s +:+ t ∧ Str.all_chars is_slash t = true) ∧
  ¬ ends_with_slash (stripTrailingSlashes s) ∧
  (¬ ends_with_slash s → stripTrailingSlashes s = s) ∧
  stripTrailingSlashes (stripTrailingSlashes s) = stripTrailingSlashes s.
Proof.
  split_and!.
  - apply strip_decompose.
  - apply strip_no_trailing_slash.
  - apply strip_fixpoint.
  - apply strip_fixpoint, strip_no_trailing_slash.
Qed.

Lemma stripTrailingSlashes_spec_witness :
  stripTrailingSlashes "https://host/api" = "https://host/api".
Proof.
  apply (proj1 (proj2 (proj2 (stripTrailingSlashes_spec "https://host/api")))).
  change "https://host/api" with (stripTrailingSlashes "https://host/api").
  apply strip_no_trailing_slash.
Defined.

Example strips_all_trailing_slashes :
  stripTrailingSlashes "https://host///" = "https://host" ∧
  stripTrailingSlashes "///" = "".
Proof. by vm_compute. Qed.

Section ShellInvariant.

Lemma default_url_clean : ¬ ends_with_slash (stripTrailingSlashes DEFAULT_API_URL).
Proof. apply strip_no_trailing_slash. Qed.

Lemma initialShell_ok storage hasDarkClass prefersDark probe :
  shell_ok (startShell storage hasDarkClass prefersDark probe).
Proof.
  unfold startShell, initAutoConnection, shell_ok.
  destruct (match probe _ with FetchRejected _ => _ | _ => _ end);
    cbn -[stripTrailingSlashes DEFAULT_API_URL];
    (split_and!; [done | by split; intros [? ?] | done
                 | apply default_url_clean | done | done]).
Qed.

Lemma handleValidationSave_ok fetch flat st :
  let st' := (handleValidationSave fetch flat st).1 in
  user st' = user st ∧ apiUrl st' = apiUrl st ∧ ocrData st' = ocrData st ∧
  (view st' = view st ∨ view st' = ViewSuccess).
Proof.
  cbv zeta. unfold handleValidationSave.
  destruct (ocrData st) as [d|] eqn:E; [|simpl; by auto].
  destruct (validationError _); simpl; rewrite ?E; auto.
Qed.

Lemma handleUpload_ok fetch parseError sh :
  let sh' := (handleUpload fetch parseError sh).1 in
  auth sh' = auth sh ∧ ui sh' = ui sh ∧ browser sh' = browser sh ∧
  user (app sh') = user (app sh) ∧ apiUrl (app sh') = apiUrl (app sh) ∧
  (isUploading (upload sh) = false → isUploading (upload sh') = false) ∧
  ((view (app sh') = view (app sh) ∧ ocrData (app sh') = ocrData (app sh)) ∨
   (view (app sh') = ViewEditor ∧
    ∃ req status statusText text,
      fetch req
      = UploadResponse status statusText text (DocumentRead (ocrData (app sh'))) ∧
      response_ok status = true)).
Proof.
  cbv zeta. unfold handleUpload.
  destruct (selectedFile (upload sh)) as [file|]; [|by split_and!; auto].
  unfold uploadResult.
  destruct (fetch _) as [m|status statusText text [data|m]] eqn:E;
    [by simpl; split_and!; auto| |];
    (destruct (response_ok status) eqn:Eok; simpl; split_and!; eauto 10).
Qed.

Lemma step_ok sh a : shell_ok sh → shell_ok (step sh a).
Proof.
  intros (Hsetup & Huser & Hbuzo & Hurl & Hup & Hdark).
  destruct a; cbn [step]; unfold shell_ok.
  - by split_and!.
  - by split_and!.
  - unfold handleLogin.
    destruct (negb (String.eqb _ "1234")); [by split_and!|].
    destruct (account _) as [[r displayName]|]; [|by split_and!].
    simpl. split_and!; try done;
      first [by intros [= ->] | split; by eauto].
  - simpl. split_and!; try done; split; by intros [? ?].
  - simpl. by split_and!.
  - unfold canViewDashboard. destruct (role (auth sh)) as [[]|] eqn:E;
      simpl; split_and!; try done; by rewrite ?E.
  - by split_and!.
  - destruct (canViewSettings sh); by split_and!.
  - by split_and!.
  - unfold settingsHandleSave.
    destruct (negb probeSucceeded && negb confirmed); [by split_and!|].
    cbn -[stripTrailingSlashes]. split_and!; try done.
    apply strip_no_trailing_slash.
  - by split_and!.
  - destruct file; simpl; by split_and!.
  - by split_and!.
  - destruct (handleUpload_ok fetch parseError sh)
      as (Ha & Hu & Hb & Hus & Hap & Hiu & Hv).
    rewrite Ha, Hu, Hb, Hus, Hap. split_and!; try done; [|by apply Hiu].
    destruct Hv as [[-> _]|[-> _]]; done.
  - destruct (handleValidationSave_ok fetch validatedCells (app sh))
      as (Hus & Hap & Hoc & Hv).
    cbn [on_app app auth ui upload browser].
    rewrite Hus, Hap. split_and!; try done.
    destruct Hv as [->| ->]; done.
  - by split_and!.
  - by split_and!.
  - simpl. by split_and!.
Qed.

Lemma run_ok actions sh : shell_ok sh → shell_ok (run actions sh).
Proof.
  unfold run. revert sh.
  induction actions as [|a actions IH]; intros sh H; simpl; [done|].
  by apply IH, step_ok.
Qed.





End ShellInvariant.


(** X19. A diver never reaches the dashboard: after the start-up effects
    and any sequence of events, when the role of the user is [buzo] the
    current module is the OCR module, and the main area shows the
    dashboard only to an administrator or a supervisor. *)
Theorem diver_never_on_dashboard
  (storage : gmap string string) (hasDarkClass prefersDark : bool)
  (probe : string → FetchOutcome) (actions : list Action) :
  let sh := run actions (startShell storage hasDarkClass prefersDark probe) in
  (role (auth sh) = Some RoleBuzo → currentModule (ui sh) = ModuleOcr) ∧
  (mainArea sh = ShowDashboard →
   role (auth sh) = Some RoleAdmin ∨ role (auth sh) = Some RoleSupervisor).
Proof.
  cbv zeta.
  pose proof (run_ok actions _
                (initialShell_ok storage hasDarkClass prefersDark probe))
    as (_ & _ & Hbuzo & _).
  split; [done|]. clear Hbuzo.
  generalize (run actions (startShell storage hasDarkClass prefersDark probe)).
  intros sh. unfold mainArea, canViewDashboard.
  destruct (user (app sh)); [|done]. destruct (currentModule (ui sh)).
  - by destruct (view (app sh)), (ocrData (app sh)).
  - destruct (role (auth sh)) as [[]|]; auto; done.
Qed.

(** X20. The address of the service never ends with a slash: not after
    the start-up probe, whatever it answers, and not after any sequence
    of events, the saving of an address typed with trailing slashes
    included. *)
Theorem api_url_never_ends_with_slash
  (storage : gmap string string) (hasDarkClass prefersDark : bool)
  (probe : string → FetchOutcome) (actions : list Action) :
  let url := apiUrl (app (run actions
                            (startShell storage hasDarkClass prefersDark probe))) in
  stripTrailingSlashes url = url ∧ ¬ ends_with_slash url.
Proof.
  cbv zeta.
  pose proof (run_ok actions _
                (initialShell_ok storage hasDarkClass prefersDark probe))
    as (_ & _ & _ & Hurl & _).
  split; [by apply strip_fixpoint | exact Hurl].
Qed.

Example saved_address_is_cleaned :
  apiUrl (app (run [TypeUsername "admin"; TypePassword "1234"; Login;
                    OpenSettings; SaveSettings "http://localhost:8000//" true false]
                 (startShell ∅ false false (λ _, FetchRejected "Failed to fetch"))))
  = "http://localhost:8000".
Proof. by vm_compute. Qed.

(** X21. The theme that the toggle stores is the theme of the next
    start, whatever the system prefers; and after the start-up effects
    and any sequence of events the class [dark] is on the document
    exactly in dark mode. *)
Theorem theme_is_restored
  (sh : Shell) (prefersDark hasDarkClass : bool) :
  let sh' := toggleTheme sh in
  isDarkMode (ui sh') = negb (isDarkMode (ui sh)) ∧
  isDarkMode
    (ui (initTheme prefersDark
           (initialShell (localStorage (browser sh')) hasDarkClass)))
  = isDarkMode (ui sh') ∧
  (∀ storage probe actions,
     let reached := run actions
                      (startShell storage hasDarkClass prefersDark probe) in
     darkClass (browser reached) = isDarkMode (ui reached)).
Proof.
  cbv zeta. split_and!.
  - done.
  - unfold initTheme, toggleTheme. cbn. rewrite lookup_insert_eq.
    by destruct (isDarkMode (ui sh)).
  - intros storage probe actions.
    by pose proof (run_ok actions _
                     (initialShell_ok storage hasDarkClass prefersDark probe))
      as (_ & _ & _ & _ & _ & Hdark).
Qed.

Lemma account_Some u r displayName :
  account u = Some (r, displayName) →
  u ∈ ["admin"; "supervisor"; "buzo"] ∧ (r = RoleBuzo ↔ u = "buzo").
Proof.
  unfold account.
  destruct (String.eqb_spec u "admin") as [->|H1].
  { intros [= <- <-]. split; [set_solver | split; discriminate]. }
  destruct (String.eqb_spec u "supervisor") as [->|H2].
  { intros [= <- <-]. split; [set_solver | split; discriminate]. }
  destruct (String.eqb_spec u "buzo") as [->|H3]; [|discriminate].
  intros [= <- <-]. split; [set_solver | done].
Qed.

Lemma account_None u :
  account u = None → u ∉ ["admin"; "supervisor"; "buzo"].
Proof.
  unfold account.
  destruct (String.eqb_spec u "admin") as [->|H1]; [discriminate|].
  destruct (String.eqb_spec u "supervisor") as [->|H2]; [discriminate|].
  destruct (String.eqb_spec u "buzo") as [->|H3]; [discriminate|].
  intros _ H.
  repeat (apply elem_of_cons in H as [->|H]; [done|]).
  by apply elem_of_nil in H.
Qed.

(** X22. A login succeeds exactly when the password is "1234" and the
    user name, in lower case, is one of admin, supervisor and buzo. The
    session then carries the user name in lower case, opens on the OCR
    module for a diver and on the dashboard for the two other roles, and
    shows no error; a failed login shows an error and leaves the session,
    the module and the document alone. *)
Theorem login_succeeds_iff (sh : Shell) :
  user (app sh) = None →
  let sh' := handleLogin sh in
  let u := toLowerCase (usernameInput (auth sh)) in
  (is_Some (user (app sh')) ↔
   passwordInput (auth sh) = "1234" ∧ u ∈ ["admin"; "supervisor"; "buzo"]) ∧
  (∀ usr, user (app sh') = Some usr →
     username usr = u ∧ is_Some (role (auth sh')) ∧
     loginError (auth sh') = EmptyString ∧
     (currentModule (ui sh') = ModuleOcr ↔ u = "buzo") ∧
     (role (auth sh') = Some RoleBuzo ↔ u = "buzo")) ∧
  (user (app sh') = None →
     loginError (auth sh') ≠ EmptyString ∧
     app sh' = app sh ∧ ui sh' = ui sh ∧ role (auth sh') = role (auth sh)).
Proof.
  intros Hnone. cbv zeta. unfold handleLogin.
  destruct (String.eqb_spec (passwordInput (auth sh)) "1234") as [Hp|Hp]; simpl.
  - destruct (account _) as [[r displayName]|] eqn:E; simpl.
    + apply account_Some in E as [Hin Hbuzo]. split_and!.
      * split; [by intros _ | eauto].
      * intros usr [= <-]. split_and!; try done; try (by eauto).
        -- rewrite <- Hbuzo. destruct r; split; done.
        -- rewrite <- Hbuzo. split; [by intros [= ->] | by intros ->].
      * discriminate.
    + apply account_None in E. rewrite Hnone. split_and!.
      * split; [by intros [? ?] | by intros [_ ?]].
      * discriminate.
      * intros _. split_and!; try done; by destruct sh as [[] ? ? ? ?].
  - rewrite Hnone. split_and!.
    + split; [by intros [? ?] | by intros [? _]].
    + discriminate.
    + intros _. split_and!; try done; by destruct sh as [[] ? ? ? ?].
Qed.

Lemma login_succeeds_iff_witness :
  ∃ usr,
    user (app (handleLogin
                 (on_auth (setPasswordInput "1234")
                    (on_auth (setUsernameInput "BUZO")
                       (initialShell ∅ false))))) = Some usr ∧
    username usr = "buzo".
Proof.
  pose proof (login_succeeds_iff
                (on_auth (setPasswordInput "1234")
                   (on_auth (setUsernameInput "BUZO") (initialShell ∅ false)))
                eq_refl) as (Hiff & Husr & _).
  destruct (proj2 Hiff) as [usr Hu].
  { split; [reflexivity|]. apply list_elem_of_lookup. by exists 2%nat. }
  exists usr. split; [exact Hu|]. by destruct (Husr usr Hu) as [-> _].
Defined.

Lemma or_else_nonempty a b : b ≠ EmptyString → or_else a b ≠ EmptyString.
Proof.
  intros Hb. unfold or_else.
  by destruct (String.eqb_spec a EmptyString).
Qed.

Lemma uploadDisplayMessage_nonempty m : uploadDisplayMessage m ≠ EmptyString.
Proof.
  unfold uploadDisplayMessage.
  destruct (_ || _); [done|]. by apply or_else_nonempty.
Qed.

Section UploadMessages.

#[local] Arguments String.append !_ _ : simpl nomatch.

Lemma prefix_iff (sub s : string) :
  String.prefix sub s = true ↔ ∃ post, s = sub +:+ post.
Proof.
  revert sub. induction s as [|b s IH]; intros [|a sub]; simpl.
  - split; [intros _; by exists EmptyString | done].
  - split; [done | intros [post H]; discriminate H].
  - split; [intros _; by eexists | done].
  - destruct (ascii_dec a b) as [->|Hab].
    + rewrite IH. split; intros [post H]; exists post.
      * simpl. by rewrite H.
      * simpl in H. congruence.
    + split; [done | intros [post H]; simpl in H; congruence].
Qed.

Lemma includes_iff (s sub : string) : Str.includes s sub = true ↔ contains s sub.
Proof.
  unfold contains. induction s as [|c s IH].
  - change (Str.includes EmptyString sub)
      with (String.prefix sub EmptyString || false).
    rewrite orb_false_r, prefix_iff. split.
    + intros [post H]. by exists EmptyString, post.
    + intros (pre & post & H). destruct pre; [by exists post | discriminate H].
  - change (Str.includes (String c s) sub)
      with (String.prefix sub (String c s) || Str.includes s sub).
    rewrite orb_true_iff, IH, prefix_iff. split.
    + intros [[post H]|(pre & post & H)].
      * by exists EmptyString, post.
      * exists (String c pre), post. simpl. by rewrite H.
    + intros (pre & post & H). destruct pre as [|c' pre].
      * left. by exists post.
      * right. exists pre, post. simpl in H. congruence.
Qed.

Lemma includes_false_iff (s sub : string) :
  Str.includes s sub = false ↔ ¬ contains s sub.
Proof. rewrite <- includes_iff. by destruct (Str.includes s sub). Qed.

Lemma uploadDisplayMessage_shown raw : shown_for raw (uploadDisplayMessage raw).
Proof.
  unfold shown_for, uploadDisplayMessage, or_else.
  destruct (String.eqb_spec raw EmptyString) as [->|Hne].
  - split_and!; [done| |done].
    intros [H|H]; apply includes_iff in H; by vm_compute in H.
  - destruct (Str.includes raw "Failed to fetch") eqn:E1; simpl.
    + apply includes_iff in E1. split_and!; [done|done|done].
    + destruct (Str.includes raw "NetworkError") eqn:E2.
      * apply includes_iff in E2. split_and!; [done|done|done].
      * apply includes_false_iff in E1, E2.
        split_and!; [done| |done]. by intros [?|?].
Qed.

Lemma uploadErrorMessage_detail parseError statusText text :
  refusal_detail parseError statusText text
    (uploadErrorMessage parseError statusText text).
Proof.
  unfold refusal_detail, uploadErrorMessage. split_and!.
  - by intros e ->.
  - by intros ->.
  - intros b -> Hb. destruct (String.eqb_spec b EmptyString) as [|_]; [done|].
    split_and!.
    + by intros ->.
    + by intros d m js ->.
    + by intros m js ->.
    + by intros js ->.
Qed.

End UploadMessages.

(** X23. An upload without a selected file sends nothing and only sets an
    error. With a file it sends one request, with the file and the zone
    (zone "1" when none is selected), and ends with the uploading flag
    off. When the service answers with a status in 200..299 and a body
    that is JSON, the view becomes the editor view, what was read is
    stored as the document, even when it is [null], and no error is
    shown. In the other cases (the request fails, the body of a 2xx
    answer is not JSON, or the status is outside 200..299) the view and
    the document are left alone and a non-empty message is shown: the
    message of the error, "Error desconocido." for an empty one, the
    connection message for one that tells of a network failure; for a
    status outside 200..299 the message of the error is "Error Servidor
    (status): " followed by what the body of the answer says. *)
Theorem upload_outcome
  (fetch : UploadRequest → UploadOutcome) (parseError : string → ErrorJson)
  (sh : Shell) :
  let sh' := (handleUpload fetch parseError sh).1 in
  let sent := (handleUpload fetch parseError sh).2 in
  match selectedFile (upload sh) with
  | None =>
      sent = [] ∧ app sh' = app sh ∧
      uploadError (upload sh') = Some "Por favor selecciona un archivo."
  | Some file =>
      ∃ req, sent = [req] ∧ upload_file req = file ∧
        upload_url req = apiUrl (app sh) +:+ "/api/v1/registros" ∧
        upload_zona_id req
        = (if decide (selectedZone (upload sh) = EmptyString) then "1"
           else selectedZone (upload sh)) ∧
        isUploading (upload sh') = false ∧
        selectedFile (upload sh') = Some file ∧
        match fetch req with
        | UploadRejected raw => upload_refused sh sh' raw
        | UploadResponse status statusText text document =>
            if decide (200 ≤ status ≤ 299) then
              match document with
              | DocumentRead data =>
                  view (app sh') = ViewEditor ∧ ocrData (app sh') = data ∧
                  uploadError (upload sh') = None
              | DocumentRejected raw => upload_refused sh sh' raw
              end
            else
              ∃ detail,
                refusal_detail parseError statusText text detail ∧
                upload_refused sh sh'
                  ("Error Servidor (" +:+ Str.of_Z status +:+ "): " +:+ detail)
        end
  end.
Proof.
  cbv zeta. unfold handleUpload.
  destruct (selectedFile (upload sh)) as [file|] eqn:Ef; [|done].
  eexists. split; [reflexivity|]. cbn [upload_file upload_url upload_zona_id fst].
  split_and!; try done.
  - unfold or_else. destruct (String.eqb_spec (selectedZone (upload sh)) EmptyString).
    + by rewrite decide_True.
    + by rewrite decide_False.
  - destruct (uploadResult _ _); exact Ef.
  - assert (Href : ∀ raw,
      upload_refused sh
        (on_upload (setIsUploading false)
           (on_upload (setUploadError (Some (uploadDisplayMessage raw)))
              (on_upload (setUploadError None)
                 (on_upload (setIsUploading true) sh)))) raw).
    { intros raw. unfold upload_refused. simpl. split_and!; [done..|].
      eexists. split_and!; [done| |apply uploadDisplayMessage_shown].
      apply uploadDisplayMessage_nonempty. }
    unfold uploadResult.
    destruct (fetch _) as [raw|status statusText text document]; [apply Href|].
    unfold response_ok.
    destruct (decide (200 ≤ status ≤ 299)) as [Hs|Hs].
    + rewrite (proj2 (Z.leb_le _ _) (proj1 Hs)), (proj2 (Z.leb_le _ _) (proj2 Hs)).
      simpl. destruct document as [data|raw]; [done|apply Href].
    + assert ((200 <=? status) && (status <=? 299) = false) as ->.
      { apply andb_false_iff.
        destruct (Z.leb_spec 200 status); [|by left].
        destruct (Z.leb_spec status 299); [lia|by right]. }
      eexists. split; [apply uploadErrorMessage_detail | apply Href].
Qed.

(** An answer with status 200 and the body [null] is taken for a
    document: the view changes, nothing is stored and no error is
    shown. *)
Example upload_null_body :
  let sh := on_upload (setSelectedFile (Some (mkFile "hoja.jpg")))
              (initialShell ∅ false) in
  let fetch := λ _ : UploadRequest,
    UploadResponse 200 "OK" (TextRead "null") (DocumentRead None) in
  let sh' := (handleUpload fetch (λ _, NotJson) sh).1 in
  view (app sh') = ViewEditor ∧ ocrData (app sh') = None ∧
  uploadError (upload sh') = None.
Proof. by vm_compute. Qed.

(** X24. With a document loaded and the view not yet the success view, a
    commit makes the view the success view exactly when the request does
    not fail, that is when [fetch] resolves with a status in 200..299; it
    then sets the success message and a success notification. *)
Theorem validation_save_success_iff
  (fetch : Request → FetchOutcome) (flat : list MatrixCell)
  (st : AppState) (d : OCR.t) :
  ocrData st = Some d → view st ≠ ViewSuccess →
  let st' := (handleValidationSave fetch flat st).1 in
  let outcome := fetch (validationRequest st d flat) in
  (view st' = ViewSuccess ↔ ¬ failed outcome) ∧
  (¬ failed outcome ↔ ∃ status text,
       outcome = FetchResponse status text ∧ 200 ≤ status ≤ 299) ∧
  (view st' = ViewSuccess →
   is_Some (successMsg st') ∧
   type <$> notification st' = Some NotifySuccess).
Proof.
  intros Hd Hv. cbv zeta. unfold handleValidationSave. rewrite Hd.
  rewrite failed_error.
  destruct (validationError _) as [m|] eqn:E; simpl.
  - split_and!.
    + split; [done|]. intros H. destruct H. eauto.
    + split; [intros H; destruct H; eauto|].
      intros (status & text & Hout & Hs). rewrite Hout in E. simpl in E.
      unfold response_ok in E.
      rewrite (proj2 (Z.leb_le _ _) (proj1 Hs)), (proj2 (Z.leb_le _ _) (proj2 Hs)) in E.
      discriminate.
    + done.
  - split_and!.
    + split; [|done]. by intros _ [? ?].
    + split; [|by intros _ [? ?]]. intros _.
      destruct (fetch _) as [m|status text]; [discriminate|]. simpl in E.
      destruct (response_ok status) eqn:Eok.
      * exists status, text. split; [done|].
        unfold response_ok in Eok. apply andb_true_iff in Eok as [H1 H2].
        apply Z.leb_le in H1, H2. lia.
      * by destruct text.
    + intros _. split; eauto.
Qed.

Lemma validation_save_success_iff_witness :
  view (handleValidationSave (λ _, FetchResponse 204 (TextRead ""))
          [cell_row0] sample_app).1 = ViewSuccess.
Proof.
  destruct (validation_save_success_iff
              (λ _, FetchResponse 204 (TextRead "")) [cell_row0] sample_app
              (OCR.mk 12 "pendiente_validacion" 1 None))
    as (Hiff & _); [reflexivity | discriminate |].
  apply Hiff. simpl. discriminate.
Defined.

Lemma step_keeps_no_document sh a :
  is_upload a = false → ocrData (app sh) = None →
  ocrData (app (step sh a)) = None.
Proof.
  intros Ha Hnone. destruct a; try discriminate; cbn [step]; try done.
  - unfold handleLogin. destruct (negb _); [done|].
    by destruct (account _) as [[? ?]|].
  - by destruct (canViewDashboard sh).
  - by destruct (canViewSettings sh).
  - unfold settingsHandleSave. by destruct (_ && _).
  - by destruct file.
  - cbn [on_app app].
    by destruct (handleValidationSave_ok fetch validatedCells (app sh))
      as (_ & _ & -> & _).
Qed.

(** X25. A logout discards the work in progress: the user, the selected
    file, the document, the success message and the typed credentials
    are gone, the view is the upload view and the login form is shown.
    After a logout a document can only come from an upload: as long as
    no upload is started there is no document, whoever logs in and
    whatever else happens. *)
Theorem logout_discards_document (sh : Shell) (actions : list Action) :
  let out := handleLogout sh in
  user (app out) = None ∧ role (auth out) = None ∧
  ocrData (app out) = None ∧ selectedFile (upload out) = None ∧
  successMsg (app out) = None ∧ view (app out) = ViewUpload ∧
  usernameInput (auth out) = EmptyString ∧
  passwordInput (auth out) = EmptyString ∧
  mainArea out = ShowLogin ∧
  (forallb (λ a, negb (is_upload a)) actions = true →
   ocrData (app (run actions out)) = None).
Proof.
  cbv zeta. split_and!; try done.
  assert (Hout : ocrData (app (handleLogout sh)) = None) by done.
  revert Hout. generalize (handleLogout sh). unfold run.
  induction actions as [|a actions IH]; intros sh0 Hnone Hall; [done|].
  simpl in Hall. apply andb_true_iff in Hall as [Ha Hall].
  apply negb_true_iff in Ha. simpl. apply IH; [|done].
  by apply step_keeps_no_document.
Qed.

Lemma logout_discards_document_witness :
  ocrData (app (run [TypeUsername "admin"; TypePassword "1234"; Login; GoOcr]
                  (handleLogout (initialShell ∅ false)))) = None.
Proof.
  apply (logout_discards_document (initialShell ∅ false)
           [TypeUsername "admin"; TypePassword "1234"; Login; GoOcr]).
  reflexivity.
Defined.

(** The messages of a refused upload and of an unreachable service. *)
Example upload_refused_message :
  let sh := on_upload (setSelectedFile (Some (mkFile "hoja.jpg")))
              (initialShell ∅ false) in
  let fetch := λ _ : UploadRequest,
    UploadResponse 422 "Unprocessable Entity" (TextRead "{...}")
      (DocumentRejected "") in
  let parseError := λ _ : string, IsJson (Some "zona desconocida") None "{...}" in
  uploadError (upload (handleUpload fetch parseError sh).1)
  = Some "Error Servidor (422): zona desconocida" ∧
  upload_zona_id <$> (handleUpload fetch parseError sh).2 = ["1"].
Proof. by vm_compute. Qed.

Example upload_unreachable_message :
  let sh := on_upload (setSelectedFile (Some (mkFile "hoja.jpg")))
              (initialShell ∅ false) in
  uploadError
    (upload (handleUpload (λ _, UploadRejected "Failed to fetch")
               (λ _, NotJson) sh).1)
  = Some (uploadDisplayMessage "Failed to fetch") ∧
  view (app (handleUpload (λ _, UploadRejected "Failed to fetch")
               (λ _, NotJson) sh).1) = ViewUpload.
Proof. by vm_compute. Qed.
